(** * The ASE / Quantum Espresso / McStas notebook, cell by cell

    A shallow embedding of [ase.ipynb].  The notebook is straight-line
    Python: every code cell becomes a function from the interpreter state
    to an outcome, and running the notebook is running its cells in order
    until one raises.  Everything the notebook delegates to other programs
    (wget, ASE's readers and writers, pw.x, cif2hkl, git, the McStas
    engine, libm) is a field of the record [External]; the statements are
    proved for every value of that record unless a hypothesis says
    otherwise.

    Python floats are IEEE binary64 numbers and are modelled by Rocq's
    primitive floats.  The C expressions that McStas evaluates in the
    instrument's INITIALIZE section are interpreted over the real numbers
    (module [Init]). *)

From Stdlib Require Import Reals Lra Lia ZArith String Ascii List Floats.
From stdpp Require Import base option list gmap strings pretty fin_maps.
Import ListNotations.

Set Warnings "-inexact-float".
Local Open Scope string_scope.

(** ** Python exceptions and outcomes *)

Inductive exn : Type :=
| KeyError (key : string)
| NameError (name : string)
| TypeError
| ValueError
| FileNotFoundError
| FileExistsError
| NotADirectoryError
| FormatError
| CalculationFailed
| RuntimeError
| IsADirectoryError
| UndeclaredReference (name : string)
| EngineFailure.

Inductive result (A : Type) : Type :=
| Ok (a : A)
| Raise (e : exn).
Arguments Ok {A} a.
Arguments Raise {A} e.

Definition rbind {A B : Type} (r : result A) (k : A -> result B) : result B :=
  match r with
  | Ok a => k a
  | Raise e => Raise e
  end.

(** ** Paths and the file system (what [os] does for the notebook) *)

(** A path is the list of its components, innermost first, so that the
    parent directory is the tail; the root is []. *)
Abbreviation path := (list string).

Inductive node : Type :=
| Dir
| File (content : string).

(** Split a string at every occurrence of a character (like
    [s.split(sep)]). *)
Fixpoint split_on (sep : ascii) (s : string) : list string :=
  match s with
  | EmptyString => [EmptyString]
  | String c r =>
      if Ascii.eqb c sep then EmptyString :: split_on sep r
      else match split_on sep r with
           | [] => [String c EmptyString]
           | h :: t => String c h :: t
           end
  end.

Definition split_slash : string -> list string := split_on "/".

Definition is_absolute (s : string) : bool :=
  match s with
  | String c _ => Ascii.eqb c "/"
  | EmptyString => false
  end.

(** Walk the components of a path string from a starting directory:
    empty components and "." are skipped, ".." goes to the parent. *)
Fixpoint walk (p : path) (components : list string) : path :=
  match components with
  | [] => p
  | c :: rest =>
      if String.eqb c EmptyString then walk p rest
      else if String.eqb c "." then walk p rest
      else if String.eqb c ".." then walk (tail p) rest
      else walk (c :: p) rest
  end.

(** [os.path.abspath] relative to the current working directory. *)
Definition resolve (cwd : path) (s : string) : path :=
  walk (if is_absolute s then [] else cwd) (split_slash s).

(** Last component of a URL: the file name wget saves to. *)
Definition basename (s : string) : string :=
  List.last (split_slash s) EmptyString.

Definition node_at (fs : gmap path node) (p : path) : option node :=
  match p with
  | [] => Some Dir
  | _ :: _ => fs !! p
  end.

Definition exists_at (fs : gmap path node) (p : path) : bool :=
  match node_at fs p with Some _ => true | None => false end.

Definition isdir (fs : gmap path node) (p : path) : bool :=
  match node_at fs p with Some Dir => true | _ => false end.

(** [os.mkdir(p)] *)
Definition mkdir (fs : gmap path node) (p : path) : result (gmap path node) :=
  match p with
  | [] => Raise FileExistsError
  | _ :: parent =>
      if exists_at fs p then Raise FileExistsError
      else match node_at fs parent with
           | None => Raise FileNotFoundError
           | Some (File _) => Raise NotADirectoryError
           | Some Dir => Ok (<[p := Dir]> fs)
           end
  end.

(** [os.makedirs(p, exist_ok=...)], following CPython: create the parent
    first when it does not exist (a FileExistsError from that recursive
    call is swallowed), then [mkdir]; an error of [mkdir] is swallowed when
    [exist_ok] is set and the path is a directory. *)
Fixpoint makedirs (fs : gmap path node) (p : path) (exist_ok : bool)
  : result (gmap path node) :=
  match p with
  | [] => if exist_ok then Ok fs else Raise FileExistsError
  | _ :: parent =>
      let made_parent :=
        if exists_at fs parent then Ok fs
        else match makedirs fs parent exist_ok with
             | Raise FileExistsError => Ok fs
             | r => r
             end in
      rbind made_parent (fun fs1 =>
        match mkdir fs1 p with
        | Ok fs2 => Ok fs2
        | Raise e => if exist_ok && isdir fs1 p then Ok fs1 else Raise e
        end)
  end.

(** Every entry below the root lies in a directory. *)
Definition wf_fs (fs : gmap path node) : Prop :=
  forall c parent n, fs !! (c :: parent) = Some n -> node_at fs parent = Some Dir.

(** ** ASE objects *)

Definition vec3 : Type := (float * float * float)%type.

(** What a structure file holds: one chemical symbol and one position per
    atom, in file order. *)
Record structure : Type := {
  symbols : list string;
  positions : list vec3
}.

(** The keyword arguments of [Espresso(...)] in the configuration cell. *)
Record Espresso : Type := {
  pseudopotentials : gmap string string;
  tstress : bool;
  tprnfor : bool;
  kpts : Z * Z * Z;
  ecutrho : Z;
  ecutwfc : Z;
  ibrav : Z;
  nat_ : Z;
  ntyp : Z;
  calculation : string;
  occupations : string;
  smearing : string;
  degauss : float;
  outdir : string;
  pseudo_dir : string;
  conv_thr : float;
  mixing_mode : string;
  electron_maxstep : Z;
  mixing_beta : float;
  ion_dynamics : string
}.

Record calc_results : Type := {
  energy : float;
  fermi_level : float
}.

(** Objects live on a heap and variables hold references, as in Python:
    [atom = atomCIF] makes two names for one object. *)
Inductive object : Type :=
| OAtoms (s : structure) (calc : option nat)
| OCalc (parameters : Espresso) (results : option calc_results).

(** ** McStasScript objects *)

Inductive pval : Type :=
| PNum (f : float)
| PInt (z : Z)
| PExpr (s : string).

Inductive reference : Type :=
| ABSOLUTE
| RELATIVE (name : string).

Record Component : Type := {
  comp_name : string;
  comp_type : string;
  AT : pval * pval * pval;
  AT_RELATIVE : reference;
  ROTATED : pval * pval * pval;
  ROTATED_RELATIVE : reference;
  SPLIT : option Z;
  comp_pars : list (string * pval)
}.

Record McStas_instr : Type := {
  instr_name : string;
  parameter_list : list (string * float * string);
  declare_list : list (string * string);
  initialize_section : list string;
  component_list : list Component
}.

Record dataset : Type := {
  ds_monitor : string;
  ds_text : string
}.

(** ** Interpreter state *)

Inductive value : Type :=
| VNone
| VStr (s : string)
| VInt (z : Z)
| VFloat (f : float)
| VRef (l : nat)
| VDict (d : gmap string string)
| VMatrix (m : list vec3)
| VList (l : list string)
| VInstr (i : McStas_instr)
| VData (d : list dataset).

Inductive printed : Type :=
| PText (s : string)
| PFormat (template : string) (arg : float)
| PValue (v : value).

Inductive event : Type :=
| EvPrint (p : printed)
| EvDisplay (v : value)
| EvShell (command : string) (status : Z)
| EvView (l : nat)
| EvSolver (parameters : Espresso) (s : structure)
| EvEngine (i : McStas_instr) (ncount : float) (mpi : Z) (folder : path)
| EvPlot (d : list dataset).

Record State : Type := {
  environ : gmap string string;
  cwd : path;
  fs : gmap path node;
  heap : gmap nat object;
  next_loc : nat;
  vars : gmap string value;
  trace : list event
}.

Inductive outcome : Type :=
| Done (st : State)
| Failed (e : exn) (st : State).

Definition andthen (o : outcome) (k : State -> outcome) : outcome :=
  match o with
  | Done st => k st
  | Failed e st => Failed e st
  end.

Definition seq_stmt (c1 c2 : State -> outcome) : State -> outcome :=
  fun st => andthen (c1 st) c2.
Infix ">>" := seq_stmt (at level 65, right associativity).

Definition set_environ (k v : string) (st : State) : State :=
  {| environ := <[k := v]> (environ st); cwd := cwd st; fs := fs st;
     heap := heap st; next_loc := next_loc st; vars := vars st;
     trace := trace st |}.

Definition set_cwd (p : path) (st : State) : State :=
  {| environ := environ st; cwd := p; fs := fs st;
     heap := heap st; next_loc := next_loc st; vars := vars st;
     trace := trace st |}.

Definition set_fs (f : gmap path node) (st : State) : State :=
  {| environ := environ st; cwd := cwd st; fs := f;
     heap := heap st; next_loc := next_loc st; vars := vars st;
     trace := trace st |}.

Definition set_heap (l : nat) (o : object) (st : State) : State :=
  {| environ := environ st; cwd := cwd st; fs := fs st;
     heap := <[l := o]> (heap st); next_loc := next_loc st; vars := vars st;
     trace := trace st |}.

Definition alloc (o : object) (st : State) : nat * State :=
  (next_loc st,
   {| environ := environ st; cwd := cwd st; fs := fs st;
      heap := <[next_loc st := o]> (heap st); next_loc := S (next_loc st);
      vars := vars st; trace := trace st |}).

Definition set_var (x : string) (v : value) (st : State) : State :=
  {| environ := environ st; cwd := cwd st; fs := fs st;
     heap := heap st; next_loc := next_loc st; vars := <[x := v]> (vars st);
     trace := trace st |}.

Definition emit (e : event) (st : State) : State :=
  {| environ := environ st; cwd := cwd st; fs := fs st;
     heap := heap st; next_loc := next_loc st; vars := vars st;
     trace := trace st ++ [e] |}.

(** [x = v] *)
Definition assign (x : string) (v : value) : State -> outcome :=
  fun st => Done (set_var x v st).

(** Read a global; [proj] is the type the statement needs it to have. *)
Definition with_var {A : Type} (proj : value -> option A) (x : string)
    (k : A -> State -> outcome) : State -> outcome :=
  fun st => match vars st !! x with
            | Some v => match proj v with
                        | Some a => k a st
                        | None => Failed TypeError st
                        end
            | None => Failed (NameError x) st
            end.

Definition as_str (v : value) : option string :=
  match v with VStr s => Some s | _ => None end.
Definition as_float (v : value) : option float :=
  match v with VFloat f => Some f | _ => None end.
Definition as_ref (v : value) : option nat :=
  match v with VRef l => Some l | _ => None end.
Definition as_dict (v : value) : option (gmap string string) :=
  match v with VDict d => Some d | _ => None end.
Definition as_instr (v : value) : option McStas_instr :=
  match v with VInstr i => Some i | _ => None end.
Definition as_data (v : value) : option (list dataset) :=
  match v with VData d => Some d | _ => None end.

Definition with_env (x : string) (k : string -> State -> outcome)
  : State -> outcome :=
  fun st => match environ st !! x with
            | Some s => k s st
            | None => Failed (KeyError x) st
            end.

Definition print (p : printed) : State -> outcome :=
  fun st => Done (emit (EvPrint p) st).

Definition display (v : value) : State -> outcome :=
  fun st => Done (emit (EvDisplay v) st).

(** [os.makedirs(name, exist_ok=True)] *)
Definition os_makedirs (name : string) : State -> outcome :=
  fun st => match makedirs (fs st) (resolve (cwd st) name) true with
            | Ok f => Done (set_fs f st)
            | Raise e => Failed e st
            end.

(** [os.chdir(name)] *)
Definition os_chdir (name : string) : State -> outcome :=
  fun st => let p := resolve (cwd st) name in
            match node_at (fs st) p with
            | Some Dir => Done (set_cwd p st)
            | Some (File _) => Failed NotADirectoryError st
            | None => Failed FileNotFoundError st
            end.

(** [os.listdir()]: the names directly under the working directory. *)
Definition listdir (f : gmap path node) (d : path) : list string :=
  omap (fun p : path => match p with
                        | c :: parent => if decide (parent = d) then Some c else None
                        | [] => None
                        end) (map_to_list f).*1.

Definition os_listdir : State -> outcome :=
  fun st => display (VList (listdir (fs st) (cwd st))) st.

(** ** The programs and libraries the notebook calls *)

(** What one run of the Espresso calculator on an Atoms object does, as
    seen from Python. *)
Record calc_outcome : Type := {
  co_raised : option exn;     (* the exception ASE raises, if any *)
  co_converged : bool;        (* whether pw.x reports convergence *)
  co_pwi : string;            (* espresso.pwi as written by ASE *)
  co_pwo : string;            (* espresso.pwo as written by pw.x *)
  co_energy : float;
  co_fermi : float;
  co_positions : list vec3    (* positions held by the caller's Atoms
                                 object when the call returns *)
}.

Record External : Type := {
  (* body served for a URL; None when the server cannot be reached *)
  http_get : string -> option string;
  (* ase.io: file name and content to the images in the file *)
  ase_parse : string -> string -> option (list structure);
  ase_format : string -> structure -> string;
  (* the Espresso calculator, with the files it can see *)
  espresso_run : Espresso -> structure -> path -> gmap path node -> calc_outcome;
  (* cif2hkl: content of the .hkl file, None when the tool fails *)
  cif2hkl_run : string -> option string;
  git_clone_run : string -> bool;
  (* the McStas engine, with the files it can see *)
  mcrun : McStas_instr -> float -> Z -> path -> gmap path node
          -> option (list dataset);
  libm_atan : float -> float
}.

(** ** numpy: difference of two (n,3) arrays *)

Definition vsub (a b : vec3) : vec3 :=
  let '(ax, ay, az) := a in
  let '(bx, by_, bz) := b in
  (PrimFloat.sub ax bx, PrimFloat.sub ay by_, PrimFloat.sub az bz).

(** [a - b]: row by row when the shapes agree; a one-row operand is
    broadcast; other shapes do not combine. *)
Definition np_sub (a b : list vec3) : result (list vec3) :=
  if decide (length a = length b) then Ok (zip_with vsub a b)
  else match a, b with
       | [x], _ => Ok (map (fun y => vsub x y) b)
       | _, [y] => Ok (map (fun x => vsub x y) a)
       | _, _ => Raise ValueError
       end.

(** ** ase.io and the calculator *)

(** [io.read(name)] and [io.read(name, index=-1)]: the last image. *)
Definition io_read (E : External) (name : string)
    (k : structure -> State -> outcome) : State -> outcome :=
  fun st => match node_at (fs st) (resolve (cwd st) name) with
            | None => Failed FileNotFoundError st
            | Some Dir => Failed IsADirectoryError st
            | Some (File text) =>
                match ase_parse E name text with
                | None => Failed FormatError st
                | Some images =>
                    match last images with
                    | None => Failed FormatError st
                    | Some s => k s st
                    end
                end
            end.

(** [io.write(name, atoms)]: an existing file is overwritten. *)
Definition io_write (E : External) (name : string) (l : nat) : State -> outcome :=
  fun st => match heap st !! l with
            | Some (OAtoms s _) =>
                let p := resolve (cwd st) name in
                if isdir (fs st) p then Failed IsADirectoryError st
                else Done (set_fs (<[p := File (ase_format E name s)]> (fs st)) st)
            | _ => Failed TypeError st
            end.

(** [atoms.get_positions()] *)
Definition get_positions (l : nat) (k : list vec3 -> State -> outcome)
  : State -> outcome :=
  fun st => match heap st !! l with
            | Some (OAtoms s _) => k (positions s) st
            | _ => Failed TypeError st
            end.

(** [atoms.calc = calc] *)
Definition set_calc (l lc : nat) : State -> outcome :=
  fun st => match heap st !! l with
            | Some (OAtoms s _) => Done (set_heap l (OAtoms s (Some lc)) st)
            | _ => Failed TypeError st
            end.

(** [atoms.get_potential_energy()]: ASE writes espresso.pwi, runs pw.x,
    which writes espresso.pwo, and stores the parsed results in the
    calculator.  Nothing here looks at [co_converged]. *)
Definition get_potential_energy (E : External) (l : nat)
    (k : float -> State -> outcome) : State -> outcome :=
  fun st =>
    match heap st !! l with
    | Some (OAtoms s (Some lc)) =>
        match heap st !! lc with
        | Some (OCalc par _) =>
            let o := espresso_run E par s (cwd st) (fs st) in
            let st1 := emit (EvSolver par s) st in
            let st2 := set_fs (<["espresso.pwo" :: cwd st := File (co_pwo o)]>
                                (<["espresso.pwi" :: cwd st := File (co_pwi o)]>
                                   (fs st1))) st1 in
            match co_raised o with
            | Some e => Failed e st2
            | None =>
                let r := {| energy := co_energy o; fermi_level := co_fermi o |} in
                let st3 := set_heap lc (OCalc par (Some r)) st2 in
                let s' := {| symbols := symbols s; positions := co_positions o |} in
                k (co_energy o) (set_heap l (OAtoms s' (Some lc)) st3)
            end
        | _ => Failed TypeError st
        end
    | Some (OAtoms _ None) => Failed RuntimeError st
    | _ => Failed TypeError st
    end.

(** [atoms.get_total_energy()]: the stored potential energy plus the
    kinetic energy, which is 0.0 for atoms without momenta. *)
Definition get_total_energy (l : nat) (k : float -> State -> outcome)
  : State -> outcome :=
  fun st =>
    match heap st !! l with
    | Some (OAtoms _ (Some lc)) =>
        match heap st !! lc with
        | Some (OCalc _ (Some r)) => k (PrimFloat.add (energy r) 0%float) st
        | Some (OCalc _ None) => Failed RuntimeError st
        | _ => Failed TypeError st
        end
    | Some (OAtoms _ None) => Failed RuntimeError st
    | _ => Failed TypeError st
    end.

(** [calc.get_fermi_level()] *)
Definition get_fermi_level (lc : nat) (k : float -> State -> outcome)
  : State -> outcome :=
  fun st =>
    match heap st !! lc with
    | Some (OCalc _ (Some r)) => k (fermi_level r) st
    | Some (OCalc _ None) => Failed RuntimeError st
    | _ => Failed TypeError st
    end.

(** ** os.system *)

(** Drop a trailing ".git". *)
Definition strip_git (s : string) : string :=
  let n := String.length s in
  if String.eqb (String.substring (n - 4) 4 s) ".git"
  then String.substring 0 (n - 4) s else s.

(** [os.system(command)] for the three programs the notebook runs.  The
    call returns the wait status (exit code times 256) and never raises;
    every statement of the notebook discards that status. *)
Definition os_system (E : External) (command : string) : State -> outcome :=
  fun st =>
    match split_on " " command with
    | ["wget"; "-c"; url] =>
        match http_get E url with
        | Some body =>
            Done (emit (EvShell command 0)
                    (set_fs (<[basename url :: cwd st := File body]> (fs st)) st))
        | None => Done (emit (EvShell command 1024) st)
        end
    | ["cif2hkl"; name] =>
        let p := resolve (cwd st) name in
        match node_at (fs st) p with
        | Some (File text) =>
            match cif2hkl_run E text, p with
            | Some hkl, c :: parent =>
                Done (emit (EvShell command 0)
                        (set_fs (<[(c +:+ ".hkl") :: parent := File hkl]> (fs st)) st))
            | _, _ => Done (emit (EvShell command 256) st)
            end
        | _ => Done (emit (EvShell command 256) st)
        end
    | ["git"; "clone"; url] =>
        let d := strip_git (basename url) :: cwd st in
        if git_clone_run E url && negb (exists_at (fs st) d)
        then Done (emit (EvShell command 0) (set_fs (<[d := Dir]> (fs st)) st))
        else Done (emit (EvShell command 32768) st)
    | _ => Done (emit (EvShell command 32512) st)
    end.

(** ** McStasScript: building the instrument *)

Definition McStas_instr_new (name : string) : McStas_instr :=
  {| instr_name := name; parameter_list := []; declare_list := [];
     initialize_section := []; component_list := [] |}.

Definition add_parameter (name : string) (v : float) (comment : string)
    (i : McStas_instr) : McStas_instr :=
  {| instr_name := instr_name i;
     parameter_list := parameter_list i ++ [(name, v, comment)];
     declare_list := declare_list i;
     initialize_section := initialize_section i;
     component_list := component_list i |}.

Definition add_declare_var (type name : string) (i : McStas_instr) : McStas_instr :=
  {| instr_name := instr_name i;
     parameter_list := parameter_list i;
     declare_list := declare_list i ++ [(type, name)];
     initialize_section := initialize_section i;
     component_list := component_list i |}.

Definition append_initialize (line : string) (i : McStas_instr) : McStas_instr :=
  {| instr_name := instr_name i;
     parameter_list := parameter_list i;
     declare_list := declare_list i;
     initialize_section := initialize_section i ++ [line];
     component_list := component_list i |}.

Definition with_components (f : list Component -> list Component)
    (i : McStas_instr) : McStas_instr :=
  {| instr_name := instr_name i;
     parameter_list := parameter_list i;
     declare_list := declare_list i;
     initialize_section := initialize_section i;
     component_list := f (component_list i) |}.

Definition origin : pval * pval * pval := (PInt 0, PInt 0, PInt 0).

Definition to_reference (relative : option string) : reference :=
  match relative with
  | Some name => RELATIVE name
  | None => ABSOLUTE
  end.

(** Modelled from the spec: [add_component(name, type, position_spec,
    orientation_spec, params)] of the instrument-assembly interface, which
    is not part of the repository.  The component is appended to the
    sequence; a [RELATIVE] name is recorded for position and orientation
    and is not looked up at assembly time. *)
Definition add_component (name type : string)
    (at_ rotated : option (pval * pval * pval)) (relative : option string)
    (i : McStas_instr) : McStas_instr :=
  with_components (fun cs : list Component => (cs ++ [
    {| comp_name := name; comp_type := type;
       AT := default origin at_; AT_RELATIVE := to_reference relative;
       ROTATED := default origin rotated;
       ROTATED_RELATIVE := to_reference relative;
       SPLIT := None; comp_pars := [] |}])%list) i.

Definition update_component (name : string) (f : Component -> Component)
    (i : McStas_instr) : McStas_instr :=
  with_components
    (map (fun c => if String.eqb (comp_name c) name then f c else c)) i.

(** [handle.par = v] on the handle returned by [add_component]. *)
Definition set_par (name par : string) (v : pval) : McStas_instr -> McStas_instr :=
  update_component name (fun c =>
    {| comp_name := comp_name c; comp_type := comp_type c;
       AT := AT c; AT_RELATIVE := AT_RELATIVE c;
       ROTATED := ROTATED c; ROTATED_RELATIVE := ROTATED_RELATIVE c;
       SPLIT := SPLIT c; comp_pars := comp_pars c ++ [(par, v)] |}).

(** [handle.set_ROTATED(angles, RELATIVE=name)] *)
Definition set_ROTATED (name : string) (angles : pval * pval * pval)
    (relative : string) : McStas_instr -> McStas_instr :=
  update_component name (fun c =>
    {| comp_name := comp_name c; comp_type := comp_type c;
       AT := AT c; AT_RELATIVE := AT_RELATIVE c;
       ROTATED := angles; ROTATED_RELATIVE := RELATIVE relative;
       SPLIT := SPLIT c; comp_pars := comp_pars c |}).

(** [handle.set_SPLIT(n)] *)
Definition set_SPLIT (name : string) (n : Z) : McStas_instr -> McStas_instr :=
  update_component name (fun c =>
    {| comp_name := comp_name c; comp_type := comp_type c;
       AT := AT c; AT_RELATIVE := AT_RELATIVE c;
       ROTATED := ROTATED c; ROTATED_RELATIVE := ROTATED_RELATIVE c;
       SPLIT := Some n; comp_pars := comp_pars c |}).

(** Apply the statements of the assembly cell in order. *)
Definition assemble (i : McStas_instr)
    (statements : list (McStas_instr -> McStas_instr)) : McStas_instr :=
  fold_left (fun acc f => f acc) statements i.

(** ** The simulation engine *)

(** Modelled from the spec: the result of resolving a placement, which
    the engine computes and the repository does not contain: the global
    frame, or the component declared at a given index. *)
Inductive frame : Type :=
| Global
| Of (index : nat).

(** Position of a name among the names declared so far. *)
Fixpoint index_of (name : string) (names : list string) : option nat :=
  match names with
  | [] => None
  | n :: rest => if String.eqb n name then Some 0
                 else option_map S (index_of name rest)
  end.

(** Modelled from the spec: one reference is resolved against the
    components declared so far ("relative component placements must
    reference an already-declared component name"). *)
Definition resolve_reference (declared : list string) (r : reference)
  : result frame :=
  match r with
  | ABSOLUTE => Ok Global
  | RELATIVE name =>
      match index_of name declared with
      | Some k => Ok (Of k)
      | None => Raise (UndeclaredReference name)
      end
  end.

(** Modelled from the spec: resolution of relative placements by the
    simulation engine, which is not part of the repository.  Components
    are resolved in declaration order; a relative placement must name a
    component declared before it, and resolution fails otherwise. *)
Fixpoint resolve_placements (declared : list string) (cs : list Component)
  : result (list (string * frame * frame)) :=
  match cs with
  | [] => Ok []
  | c :: rest =>
      rbind (resolve_reference declared (AT_RELATIVE c)) (fun fa =>
      rbind (resolve_reference declared (ROTATED_RELATIVE c)) (fun fr =>
      rbind (resolve_placements (declared ++ [comp_name c]) rest) (fun placed =>
      Ok ((comp_name c, fa, fr) :: placed))))
  end.

(** Modelled from the spec: the numbered output folders of the runner,
    which is not part of the repository.  The spec says the folder is
    auto-incremented and gives no naming scheme; the [n]-th numbered
    sibling appends "_n" to the folder's name. *)
Definition numbered (p : path) (n : nat) : path :=
  match p with
  | [] => []
  | c :: parent => (c +:+ "_" +:+ pretty n) :: parent
  end.

(** The first numbered sibling from [n] on that does not exist, looking
    at no more than [fuel] of them. *)
Fixpoint first_free (f : gmap path node) (p : path) (n fuel : nat)
  : option path :=
  match fuel with
  | 0 => None
  | S fuel' =>
      if exists_at f (numbered p n) then first_free f p (S n) fuel'
      else Some (numbered p n)
  end.

(** Modelled from the spec: the output folder of the simulation runner,
    which is not part of the repository ("output folder (auto-incremented
    if present)", "duplicate-run numbering policy").  With the policy on
    and the requested folder present, the first numbered sibling that does
    not exist is taken.  The spec does not say what happens without the
    policy; the requested folder is then used as it is. *)
Definition data_folder (f : gmap path node) (requested : path)
    (increment_folder_name : bool) : result path :=
  if exists_at f requested && increment_folder_name then
    match first_free f requested 0 (S (size f)) with
    | Some q => Ok q
    | None => Raise FileExistsError
    end
  else Ok requested.

(** Modelled from the spec: the detector datasets are stored in the data
    folder, keyed by monitor name. *)
Definition write_datasets (folder : path) (data : list dataset)
    (f : gmap path node) : gmap path node :=
  foldr (fun d acc => <[ds_monitor d :: folder := File (ds_text d)]> acc) f data.

(** Modelled from the spec: [run(instrument, particle_count, parallelism,
    output_dir, increment_if_exists) -> DatasetCollection] of the
    simulation runner.  The engine is started on the instrument; it
    resolves the relative placements, runs, and its detector datasets are
    written into the data folder, one per monitor. *)
Definition run_full_instrument (E : External) (i : McStas_instr)
    (ncount : float) (mpi : Z) (foldername : string)
    (increment_folder_name : bool)
    (k : list dataset -> State -> outcome) : State -> outcome :=
  fun st =>
    match data_folder (fs st) (resolve (cwd st) foldername)
            increment_folder_name with
    | Raise e => Failed e st
    | Ok folder =>
        let st1 := emit (EvEngine i ncount mpi folder) st in
        match resolve_placements [] (component_list i) with
        | Raise e => Failed e st1
        | Ok _ =>
            match mcrun E i ncount mpi (cwd st) (fs st) with
            | None => Failed EngineFailure st1
            | Some data =>
                k data (set_fs (write_datasets folder data
                                  (<[folder := Dir]> (fs st1))) st1)
            end
        end
    end.

(** ** The code cells of the notebook, in order *)

(** Extend the executable search path. *)
Definition cell_path : State -> outcome :=
  with_env "HOME" (fun home => assign "QE_bin_path" (VStr (home +:+ "/PANOSC/bin"))) >>
  with_env "PATH" (fun p => with_var as_str "QE_bin_path" (fun q st =>
    Done (set_environ "PATH" (p +:+ ":" +:+ q) st))) >>
  assign "mcstas_outdir" (VStr "mcstas_output") >>
  with_env "PATH" (fun p st =>
    Done (set_environ "PATH" (p +:+ ":/usr/lib64/mpich/bin:") st)).

Definition cell_print_path : State -> outcome :=
  with_env "PATH" (fun p => print (PText p)).

(** Scratch directory and simulation output directory. *)
Definition cell_tmpdir : State -> outcome :=
  assign "tmpdir" (VStr "/tmp/jupiter/") >>
  with_var as_str "tmpdir" (fun t =>
    print (PText ("Create temporary directory: " +:+ t))) >>
  with_var as_str "tmpdir" os_makedirs >>
  with_var as_str "tmpdir" os_chdir >>
  with_var as_str "mcstas_outdir" os_makedirs.

(** Download the structure file. *)
Definition cell_download_structure (E : External) : State -> outcome :=
  assign "CIF_file" (VStr "1527603.cif") >>
  with_var as_str "CIF_file" (fun f =>
    print (PText ("Downloading CIF file " +:+ f +:+ " from crystallography.net"))) >>
  with_var as_str "CIF_file" (fun f =>
    os_system E ("wget -c https://www.crystallography.net/cod/" +:+ f)).

(** Download the pseudopotentials. *)
Definition cell_download_pseudo (E : External) : State -> outcome :=
  assign "pseudopotfile" (VStr "N.pbe-n-kjpaw_psl.1.0.0.UPF") >>
  with_var as_str "tmpdir" (fun t => assign "pseudo_dir" (VStr (t +:+ "/pseudo/"))) >>
  with_var as_str "pseudo_dir" os_makedirs >>
  with_var as_str "pseudo_dir" os_chdir >>
  with_var as_str "pseudopotfile" (fun f =>
    os_system E ("wget -c https://www.quantum-espresso.org/upf_files/" +:+ f)) >>
  os_system E "wget -c https://raw.githubusercontent.com/PaNOSC-ViNYL/workshop2020/team2/demo/team2/N.pbe-n-radius_5.UPF" >>
  with_var as_str "tmpdir" os_chdir >>
  assign "pseudopotfile" (VStr "N.pbe-n-radius_5.UPF").

(** Read the structure file into a new Atoms object. *)
Definition cell_read_structure (E : External) : State -> outcome :=
  with_var as_str "CIF_file" (fun f => io_read E f (fun s st =>
    let (l, st1) := alloc (OAtoms s None) st in
    Done (set_var "atomCIF" (VRef l) st1))) >>
  with_var as_ref "atomCIF" (fun l => print (PValue (VRef l))) >>
  with_var as_ref "atomCIF" (fun l => get_positions l (fun m =>
    print (PValue (VMatrix m)))).

Definition cell_view : State -> outcome :=
  with_var as_ref "atomCIF" (fun l st => Done (emit (EvView l) st)).

(** The keyword arguments of the [Espresso(...)] call. *)
Definition espresso_parameters (d : gmap string string) (t pd : string)
  : Espresso :=
  {| pseudopotentials := d;
     tstress := true;
     tprnfor := true;
     kpts := (6, 6, 6)%Z;
     ecutrho := 480;
     ecutwfc := 60;
     ibrav := 0;
     nat_ := 8;
     ntyp := 1;
     calculation := "relax";
     occupations := "smearing";
     smearing := "cold";
     degauss := 0.001%float;
     outdir := t;
     pseudo_dir := pd;
     conv_thr := 1e-7%float;
     mixing_mode := "plain";
     electron_maxstep := 80;
     mixing_beta := 0.5%float;
     ion_dynamics := "bfgs" |}.

(** Configure the solver and attach it to the structure.  [atom] is a
    second name for the object [atomCIF] refers to. *)
Definition cell_configure : State -> outcome :=
  with_var as_str "pseudopotfile" (fun f =>
    assign "pseudopotentials" (VDict {["N" := f]})) >>
  with_var as_dict "pseudopotentials" (fun d =>
  with_var as_str "tmpdir" (fun t =>
  with_var as_str "pseudo_dir" (fun pd st =>
    let (lc, st1) := alloc (OCalc (espresso_parameters d t pd) None) st in
    Done (set_var "calc" (VRef lc) st1)))) >>
  with_var as_ref "atomCIF" (fun l => assign "atom" (VRef l)) >>
  with_var as_ref "atom" (fun l => with_var as_ref "calc" (fun lc => set_calc l lc)).

(** Run the solver and print its scalar results. *)
Definition cell_energy (E : External) : State -> outcome :=
  with_var as_ref "atom" (fun l => get_potential_energy E l (fun e =>
    assign "potential_energy" (VFloat e))) >>
  with_var as_float "potential_energy" (fun e =>
    print (PFormat "Total energy: {0} eV" e)) >>
  with_var as_ref "atom" (fun l => get_total_energy l (fun e =>
    print (PFormat "Total energy: {0} eV" e))) >>
  with_var as_ref "calc" (fun lc => get_fermi_level lc (fun f =>
    assign "fermi_level" (VFloat f))) >>
  with_var as_float "fermi_level" (fun f =>
    print (PFormat "Fermi energy: {0} eV" f)).

(** Compare the positions in the solver's output with those of [atom]. *)
Definition cell_diff (E : External) : State -> outcome :=
  io_read E "espresso.pwo" (fun s st =>
    let (l, st1) := alloc (OAtoms s None) st in
    Done (set_var "atomsOUT" (VRef l) st1)) >>
  with_var as_ref "atomsOUT" (fun lo => get_positions lo (fun a =>
  with_var as_ref "atom" (fun l => get_positions l (fun b st =>
    match np_sub a b with
    | Ok d => display (VMatrix d) st
    | Raise e => Failed e st
    end)))).

(** Write the structure in CIF format. *)
Definition cell_write_cif (E : External) : State -> outcome :=
  assign "ase_outfile" (VStr "output.cif") >>
  with_var as_str "ase_outfile" (fun f => assign "hklfile" (VStr (f +:+ ".hkl"))) >>
  with_var as_str "ase_outfile" (fun f =>
    with_var as_ref "atom" (fun l => io_write E f l)) >>
  os_listdir.

(** Convert it to a reflection file. *)
Definition cell_cif2hkl (E : External) : State -> outcome :=
  with_var as_str "ase_outfile" (fun f => os_system E ("cif2hkl " +:+ f)).

Definition cell_listdir : State -> outcome := os_listdir.

Definition cell_git_clone (E : External) : State -> outcome :=
  os_system E "git clone git@github.com:PaNOSC-ViNYL/McStas_ViNYL_concept.git".

Definition cell_enter_clone : State -> outcome :=
  os_chdir "McStas_ViNYL_concept" >>
  with_var as_str "mcstas_outdir" os_makedirs >>
  os_listdir.

(** A Python string that holds a C string literal: the text between
    double quotes. *)
Definition quoted (s : string) : string :=
  String (ascii_of_nat 34) (s +:+ String (ascii_of_nat 34) EmptyString).

(** The instrument of the assembly cell.  [guide_width], [guide_height],
    [guide_length], [detector_height] and [detector_radius] are the Python
    variables of the cell. *)
Definition powder_diffractometer (E : External) : McStas_instr :=
  let guide_width := 0.04%float in
  let guide_height := 0.08%float in
  let guide_length := 10%Z in
  let detector_height := 0.2%float in
  let detector_radius := 1.0%float in
  assemble (McStas_instr_new "powder_diffractometer") [
    add_parameter "wavelength" 1.2%float "[AA]";
    add_component "Source" "Source_Maxwell_3" None None None;
    set_par "Source" "xwidth" (PNum 0.12);
    set_par "Source" "yheight" (PNum 0.12);
    set_par "Source" "Lmin" (PExpr "wavelength*0.94");
    set_par "Source" "Lmax" (PExpr "wavelength*1.06");
    set_par "Source" "dist" (PNum 3.0);
    set_par "Source" "focus_xw" (PNum guide_width);
    set_par "Source" "focus_yh" (PNum guide_height);
    set_par "Source" "T1" (PNum 683.7);
    set_par "Source" "I1" (PNum 0.5874E13);
    set_par "Source" "T2" (PNum 257.7);
    set_par "Source" "I2" (PNum 2.5099E13);
    set_par "Source" "T3" (PNum 16.7);
    set_par "Source" "I3" (PNum 1.0343E12);
    add_component "guide" "Guide_gravity"
      (Some (PInt 0, PInt 0, PNum 3.0)) None (Some "Source");
    set_par "guide" "w1" (PNum guide_width);
    set_par "guide" "h1" (PNum guide_height);
    set_par "guide" "l" (PInt guide_length);
    set_par "guide" "m" (PNum 3.0);
    set_par "guide" "G" (PNum (-9.82));
    add_component "guide_end" "Arm"
      (Some (PInt 0, PInt 0, PInt guide_length)) None (Some "guide");
    add_component "mono_pos" "Arm"
      (Some (PInt 0, PInt 0, PNum 0.2)) None (Some "guide_end");
    add_parameter "mono_Q" 3.355%float
      "Monochromator scattering vector length (PG) [AA^-1]";
    add_declare_var "double" "mono_theta";
    add_declare_var "double" "wavevector";
    append_initialize "wavevector = 2*PI/wavelength;";
    append_initialize "mono_theta = RAD2DEG*asin(0.5*mono_Q/wavevector);";
    add_component "mono" "Monochromator_curved"
      (Some (PInt 0, PInt 0, PInt 0)) None (Some "mono_pos");
    set_par "mono" "Q" (PExpr "mono_Q");
    set_par "mono" "height" (PNum 0.1);
    set_par "mono" "zwidth" (PNum 0.03);
    set_par "mono" "NH" (PInt 3);
    set_par "mono" "NV" (PInt 11);
    set_par "mono" "RV" (PNum 1.5);
    set_ROTATED "mono" (PInt 0, PExpr "mono_theta", PInt 0) "mono_pos";
    add_component "mono_out" "Arm"
      (Some (PInt 0, PInt 0, PInt 0))
      (Some (PInt 0, PExpr "mono_theta", PInt 0)) (Some "mono");
    add_component "L_mon" "L_monitor"
      (Some (PInt 0, PInt 0, PNum 1.0)) None (Some "mono_out");
    set_par "L_mon" "Lmin" (PExpr "wavelength*0.94");
    set_par "L_mon" "Lmax" (PExpr "wavelength*1.06");
    set_par "L_mon" "filename" (PExpr (quoted "L_mon.dat"));
    set_par "L_mon" "xwidth" (PNum 0.1);
    set_par "L_mon" "yheight" (PNum 0.1);
    set_par "L_mon" "nL" (PInt 150);
    add_component "sample" "PowderN"
      (Some (PInt 0, PInt 0, PNum 1.5)) None (Some "mono_out");
    set_par "sample" "radius" (PNum 0.008);
    set_par "sample" "yheight" (PNum 0.03);
    set_par "sample" "reflections" (PExpr (quoted "../output.cif.hkl"));
    set_par "sample" "barns" (PInt 0);
    set_par "sample" "d_phi"
      (PNum (libm_atan E (detector_height / detector_radius) * 180 / 3.14159));
    set_par "sample" "tth_sign" (PNum 1.0);
    set_SPLIT "sample" 1000;
    add_component "monitor" "Monitor_nD" None None (Some "sample");
    set_par "monitor" "xwidth" (PNum (2.0 * detector_radius));
    set_par "monitor" "yheight" (PNum detector_height);
    set_par "monitor" "options"
      (PExpr (quoted "banana, theta limits=[10,170], bins=320"));
    set_par "monitor" "filename" (PExpr (quoted "banana.dat"))
  ]%float.

Definition cell_assemble (E : External) : State -> outcome :=
  assign "Instr" (VInstr (powder_diffractometer E)).

(** Run the simulation. *)
Definition cell_run (E : External) : State -> outcome :=
  with_var as_instr "Instr" (fun i =>
  with_var as_str "mcstas_outdir" (fun d =>
    run_full_instrument E i 5E6%float 4 d true (fun data =>
      assign "data" (VData data)))).

Definition cell_plot : State -> outcome :=
  with_var as_data "data" (fun d st => Done (emit (EvPlot d) st)).

(** ** Running the notebook *)

(** Imports and the McStasScript configurator calls change nothing the
    later cells read; those cells are left out. *)
Definition notebook (E : External) : list (State -> outcome) := [
  cell_path;
  cell_print_path;
  cell_tmpdir;
  cell_download_structure E;
  cell_download_pseudo E;
  cell_listdir;
  cell_read_structure E;
  cell_view;
  cell_configure;
  cell_energy E;
  cell_diff E;
  cell_write_cif E;
  cell_cif2hkl E;
  cell_listdir;
  cell_git_clone E;
  cell_enter_clone;
  cell_assemble E;
  cell_run E;
  cell_plot
].

(** Run cells in order until one raises.  The number counts the cells
    that ran to their end. *)
Fixpoint run_cells (cells : list (State -> outcome)) (st : State)
  : nat * outcome :=
  match cells with
  | [] => (0, Done st)
  | c :: rest =>
      match c st with
      | Done st1 => let (n, o) := run_cells rest st1 in (S n, o)
      | Failed e st1 => (0, Failed e st1)
      end
  end.

(** A fresh interpreter: no globals, no objects, nothing printed. *)
Definition fresh_kernel (env : gmap string string) (dir : path)
    (files : gmap path node) : State :=
  {| environ := env; cwd := dir; fs := files; heap := ∅; next_loc := 0;
     vars := ∅; trace := [] |}.

Definition final_state (o : outcome) : State :=
  match o with
  | Done st => st
  | Failed _ st => st
  end.

(** ** The INITIALIZE section, as the engine evaluates it

    [append_initialize] stores lines of C.  The two lines of the notebook
    use identifiers, decimal literals, [*], [/], parentheses and one
    function call; that fragment is parsed and interpreted here.  Doubles
    are idealised as real numbers; [PI] and [RAD2DEG] are the macros of
    the McStas runtime (RAD2DEG is 180/PI). *)

Module Init.

Inductive token : Type :=
| TId (name : string)
| TNum (whole : string) (frac : option string)
| TSym (c : ascii).

Definition is_digit (c : ascii) : bool :=
  let n := nat_of_ascii c in (48 <=? n)%nat && (n <=? 57)%nat.

Definition is_letter (c : ascii) : bool :=
  let n := nat_of_ascii c in
  ((65 <=? n)%nat && (n <=? 90)%nat) || ((97 <=? n)%nat && (n <=? 122)%nat)
  || (n =? 95)%nat.

Definition snoc (s : string) (c : ascii) : string := s +:+ String c EmptyString.

Definition flush (cur : option token) : list token :=
  match cur with
  | Some t => [t]
  | None => []
  end.

(** [cur] is the identifier or number being read. *)
Fixpoint lex (s : string) (cur : option token) : list token :=
  match s with
  | EmptyString => flush cur
  | String c r =>
      if is_letter c then
        match cur with
        | Some (TId x) => lex r (Some (TId (snoc x c)))
        | _ => flush cur ++ lex r (Some (TId (snoc EmptyString c)))
        end
      else if is_digit c then
        match cur with
        | Some (TId x) => lex r (Some (TId (snoc x c)))
        | Some (TNum w None) => lex r (Some (TNum (snoc w c) None))
        | Some (TNum w (Some f)) => lex r (Some (TNum w (Some (snoc f c))))
        | _ => flush cur ++ lex r (Some (TNum (snoc EmptyString c) None))
        end
      else if Ascii.eqb c "." then
        match cur with
        | Some (TNum w None) => lex r (Some (TNum w (Some EmptyString)))
        | _ => flush cur ++ TSym c :: lex r None
        end
      else if Ascii.eqb c " " then flush cur ++ lex r None
      else flush cur ++ TSym c :: lex r None
  end.

Inductive cexpr : Type :=
| Num (mantissa : Z) (decimals : nat)
| Id (name : string)
| Mul (a b : cexpr)
| Div (a b : cexpr)
| Call (f : string) (a : cexpr).

Fixpoint digits_value (s : string) (acc : Z) : Z :=
  match s with
  | EmptyString => acc
  | String c r => digits_value r (10 * acc + Z.of_nat (nat_of_ascii c - 48))%Z
  end.

Definition number (whole : string) (frac : option string) : cexpr :=
  match frac with
  | None => Num (digits_value whole 0) 0
  | Some f => Num (digits_value (whole +:+ f) 0) (String.length f)
  end.

(** An operand: a literal, an identifier, a call or a parenthesised
    expression; [sub] parses the expression inside parentheses. *)
Definition parse_operand
    (sub : list token -> option (cexpr * list token)) (ts : list token)
  : option (cexpr * list token) :=
  match ts with
  | TNum w f :: r => Some (number w f, r)
  | TId x :: TSym "(" :: r =>
      match sub r with
      | Some (e, TSym ")" :: r') => Some (Call x e, r')
      | _ => None
      end
  | TId x :: r => Some (Id x, r)
  | TSym "(" :: r =>
      match sub r with
      | Some (e, TSym ")" :: r') => Some (e, r')
      | _ => None
      end
  | _ => None
  end.

(** Products and quotients associate to the left.  [acc] is the
    expression read so far. *)
Fixpoint parse_expr (fuel : nat) (acc : option cexpr) (ts : list token)
  : option (cexpr * list token) :=
  match fuel with
  | 0 => None
  | S fuel' =>
      match acc with
      | None =>
          match parse_operand (parse_expr fuel' None) ts with
          | Some (e, r) => parse_expr fuel' (Some e) r
          | None => None
          end
      | Some a =>
          match ts with
          | TSym "*" :: r =>
              match parse_operand (parse_expr fuel' None) r with
              | Some (e, r') => parse_expr fuel' (Some (Mul a e)) r'
              | None => None
              end
          | TSym "/" :: r =>
              match parse_operand (parse_expr fuel' None) r with
              | Some (e, r') => parse_expr fuel' (Some (Div a e)) r'
              | None => None
              end
          | _ => Some (a, ts)
          end
      end
  end.

(** One line: [name = expression;] *)
Definition parse_line (line : string) : option (string * cexpr) :=
  match lex line None with
  | TId x :: TSym "=" :: ts =>
      match parse_expr (S (length ts)) None ts with
      | Some (e, [TSym ";"]) => Some (x, e)
      | _ => None
      end
  | _ => None
  end.

Local Open Scope R_scope.

Fixpoint eval (rho : gmap string R) (e : cexpr) : option R :=
  match e with
  | Num m d => Some (IZR m / IZR (10 ^ Z.of_nat d))
  | Id x =>
      if String.eqb x "PI" then Some PI
      else if String.eqb x "RAD2DEG" then Some (180 / PI)
      else rho !! x
  | Mul a b =>
      match eval rho a, eval rho b with
      | Some u, Some v => Some (u * v)
      | _, _ => None
      end
  | Div a b =>
      match eval rho a, eval rho b with
      | Some u, Some v => Some (u / v)
      | _, _ => None
      end
  | Call f a =>
      if String.eqb f "asin" then
        match eval rho a with
        | Some u => Some (asin u)
        | None => None
        end
      else None
  end.

(** Execute the lines in order; only declared names can be assigned. *)
Fixpoint exec (rho : gmap string R) (lines : list string)
  : option (gmap string R) :=
  match lines with
  | [] => Some rho
  | line :: rest =>
      match parse_line line with
      | Some (x, e) =>
          match rho !! x, eval rho e with
          | Some _, Some v => exec (<[x := v]> rho) rest
          | _, _ => None
          end
      | None => None
      end
  end.

(** The variables at the start of INITIALIZE: the declared variables are
    zero, the instrument parameters have the values of the run. *)
Definition initial_env (i : McStas_instr) (args : list (string * R))
  : gmap string R :=
  list_to_map args ∪ list_to_map (map (fun d => (snd d, 0)) (declare_list i)).

Definition initialize (i : McStas_instr) (args : list (string * R))
  : option (gmap string R) :=
  exec (initial_env i args) (initialize_section i).

End Init.

(** ** A concrete laboratory, for running the notebook

    A two-atom structure and fixed answers for every external program.
    [online] says whether the servers can be reached, [converged] whether
    pw.x reports convergence, [hkl] whether cif2hkl succeeds. *)

Definition demo_before : structure :=
  {| symbols := ["N"; "N"];
     positions := [(0, 0, 0); (0.5, 0.5, 0.5)]%float |}.

Definition demo_after : structure :=
  {| symbols := ["N"; "N"];
     positions := [(0.125, 0, 0); (0.5, 0.5, 0.25)]%float |}.

Definition demo_data : list dataset :=
  [ {| ds_monitor := "L_mon"; ds_text := "# type: array_1d(150)" |};
    {| ds_monitor := "monitor"; ds_text := "# type: array_1d(320)" |} ].

Definition laboratory (online converged hkl : bool) : External :=
  {| http_get := fun url =>
       if online then Some ("content of " +:+ url) else None;
     ase_parse := fun name _ =>
       if String.eqb name "espresso.pwo" then Some [demo_before; demo_after]
       else Some [demo_before];
     ase_format := fun _ _ => "data_image0";
     espresso_run := fun _ s _ _ =>
       {| co_raised := None; co_converged := converged;
          co_pwi := "&CONTROL"; co_pwo := "Program PWSCF";
          co_energy := (-543.25)%float; co_fermi := 7.5%float;
          co_positions := positions s |};
     cif2hkl_run := fun _ => if hkl then Some "# TITLE output.cif" else None;
     git_clone_run := fun _ => true;
     mcrun := fun _ _ _ _ _ => Some demo_data;
     libm_atan := fun _ => 0.19739555984988075%float |}.

Definition demo_env : gmap string string :=
  {["HOME" := "/home/user"; "PATH" := "/usr/bin"]}.

Definition demo_files : gmap path node :=
  {[ ["tmp"] := Dir; ["home"] := Dir; ["user"; "home"] := Dir ]}.

Definition demo_start : State :=
  fresh_kernel demo_env ["user"; "home"] demo_files.

(** ** Vocabulary of the statements *)

(** The state in which the solver cell starts: [atom] names an Atoms
    object whose calculator is the object [calc] names. *)
Definition configured (st : State) (l lc : nat) (s : structure) (par : Espresso)
  : Prop :=
  vars st !! "atom" = Some (VRef l) /\
  vars st !! "calc" = Some (VRef lc) /\
  heap st !! l = Some (OAtoms s (Some lc)) /\
  (exists r, heap st !! lc = Some (OCalc par r)).

(** The configuration the notebook builds for the solver. *)
Definition solver_configuration : Espresso :=
  espresso_parameters {["N" := "N.pbe-n-radius_5.UPF"]}
    "/tmp/jupiter/" "/tmp/jupiter//pseudo/".

(** A statement that neither allocates nor updates objects. *)
Definition keeps_heap (c : State -> outcome) : Prop :=
  forall st st', c st = Done st' ->
                 heap st' = heap st /\ next_loc st' = next_loc st.

(** The exception a run ended with, if any. *)
Definition raised (o : outcome) : option exn :=
  match o with
  | Done _ => None
  | Failed e _ => Some e
  end.


(** The laboratory after the first [n] cells. *)
Definition demo_state (E : External) (n : nat) : State :=
  final_state (run_cells (firstn n (notebook E)) demo_start).2.

(** The tree shape of a file system, as a computation. *)
Definition wf_fsb (f : gmap path node) : bool :=
  forallb (fun entry : path * node => isdir f (tail entry.1)) (map_to_list f).

(** ** Vocabulary of the further properties *)

(** The events that start an external computation: the solver and the
    simulation engine. *)
Definition is_launch (e : event) : bool :=
  match e with
  | EvSolver _ _ => true
  | EvEngine _ _ _ _ => true
  | _ => false
  end.

Definition launches (evs : list event) : list event :=
  List.filter is_launch evs.

(** A statement that starts neither the solver nor the engine, whether it
    ends normally or raises. *)
Definition quiet (c : State -> outcome) : Prop :=
  forall st, exists evs,
    trace (final_state (c st)) = (trace st ++ evs)%list /\ launches evs = [].

(** The outcome of running a list of cells. *)
Definition run_all (cells : list (State -> outcome)) (st : State) : outcome :=
  (run_cells cells st).2.

(** The same programs, with a git that cannot clone. *)
Definition without_git (E : External) : External :=
  {| http_get := http_get E; ase_parse := ase_parse E;
     ase_format := ase_format E; espresso_run := espresso_run E;
     cif2hkl_run := cif2hkl_run E; git_clone_run := fun _ => false;
     mcrun := mcrun E; libm_atan := libm_atan E |}.

(** * Properties *)

(** ** The file system *)

Lemma node_at_insert_ne (f : gmap path node) (p q : path) (n : node) :
  p <> q -> node_at (<[p := n]> f) q = node_at f q.
Proof.
  intros Hne. destruct q as [|c q]; [reflexivity|].
  simpl. apply lookup_insert_ne. exact Hne.
Qed.

Lemma node_at_insert_eq (f : gmap path node) (c : string) (p : path) (n : node) :
  node_at (<[c :: p := n]> f) (c :: p) = Some n.
Proof. simpl. apply lookup_insert_eq. Qed.

Lemma node_at_mono (f g : gmap path node) (p : path) (n : node) :
  f ⊆ g -> node_at f p = Some n -> node_at g p = Some n.
Proof.
  intros Hsub. destruct p as [|c p]; simpl; [tauto|].
  intros H. eapply lookup_weaken; eauto.
Qed.

Lemma mkdir_Ok (f g : gmap path node) (p : path) :
  mkdir f p = Ok g ->
  exists c parent, p = c :: parent /\ f !! p = None /\
                   node_at f parent = Some Dir /\ g = <[p := Dir]> f.
Proof.
  destruct p as [|c parent]; simpl; [discriminate|].
  unfold exists_at. simpl.
  destruct (f !! (c :: parent)) eqn:Hp; [discriminate|].
  destruct (node_at f parent) as [[|text]|] eqn:Hpar; try discriminate.
  intros [= <-]. exists c, parent. auto.
Qed.

Lemma wf_fs_insert_dir (f : gmap path node) (c : string) (parent : path) :
  wf_fs f -> f !! (c :: parent) = None -> node_at f parent = Some Dir ->
  wf_fs (<[c :: parent := Dir]> f).
Proof.
  intros Hwf Hnone Hpar c' parent' n Hlook.
  destruct (decide (c :: parent = c' :: parent')) as [Heq|Hne].
  - injection Heq as <- <-.
    destruct (decide (c :: parent = parent)) as [Hself|Hother].
    + rewrite <- Hself at 2. apply node_at_insert_eq.
    + rewrite node_at_insert_ne by exact Hother. exact Hpar.
  - rewrite lookup_insert_ne in Hlook by exact Hne.
    specialize (Hwf _ _ _ Hlook).
    destruct (decide (c :: parent = parent')) as [<-|Hother].
    + apply node_at_insert_eq.
    + rewrite node_at_insert_ne by exact Hother. exact Hwf.
Qed.

(** A successful [makedirs] only adds directories, keeps the tree shape
    and leaves the target in place as a directory. *)
Lemma makedirs_post (p : path) :
  forall f g : gmap path node,
    wf_fs f -> makedirs f p true = Ok g ->
    wf_fs g /\ f ⊆ g /\ node_at g p = Some Dir.
Proof.
  induction p as [|c parent IH]; intros f g Hwf Hrun.
  - simpl in Hrun. injection Hrun as <-. auto.
  - simpl in Hrun.
    assert (Hmid : exists f1, wf_fs f1 /\ f ⊆ f1 /\
              match mkdir f1 (c :: parent) with
              | Ok f2 => Ok f2
              | Raise e => if isdir f1 (c :: parent) then Ok f1 else Raise e
              end = Ok g).
    { destruct (exists_at f parent).
      - exists f. simpl in Hrun. auto.
      - destruct (makedirs f parent true) as [f1|e] eqn:Hparent.
        + destruct (IH _ _ Hwf Hparent) as (Hwf1 & Hsub1 & _).
          exists f1. simpl in Hrun. auto.
        + exists f. destruct e; simpl in Hrun; try discriminate. auto. }
    destruct Hmid as (f1 & Hwf1 & Hsub1 & Hlast).
    destruct (mkdir f1 (c :: parent)) as [f2|e] eqn:Hmk.
    + injection Hlast as ->.
      apply mkdir_Ok in Hmk as (c' & parent' & Heq & Hnone & Hpar & ->).
      injection Heq as <- <-.
      split; [apply wf_fs_insert_dir; assumption|].
      split; [|apply node_at_insert_eq].
      etrans; [exact Hsub1|]. apply insert_subseteq. exact Hnone.
    + destruct (isdir f1 (c :: parent)) eqn:Hdir; [|discriminate].
      injection Hlast as <-.
      split; [assumption|]. split; [assumption|].
      unfold isdir in Hdir.
      destruct (node_at f1 (c :: parent)) as [[|text]|]; congruence.
Qed.

(** On a directory that exists, [makedirs] with [exist_ok] succeeds and
    changes nothing. *)
Lemma makedirs_existing (f : gmap path node) (p : path) :
  wf_fs f -> node_at f p = Some Dir -> makedirs f p true = Ok f.
Proof.
  intros Hwf Hdir. destruct p as [|c parent]; [reflexivity|].
  simpl. simpl in Hdir.
  unfold exists_at. rewrite (Hwf _ _ _ Hdir). simpl.
  unfold exists_at, isdir. simpl. rewrite Hdir. reflexivity.
Qed.

Lemma makedirs_twice (f g : gmap path node) (p : path) :
  wf_fs f -> makedirs f p true = Ok g -> makedirs g p true = Ok g.
Proof.
  intros Hwf Hrun. destruct (makedirs_post _ _ _ Hwf Hrun) as (Hwfg & _ & Hdir).
  apply makedirs_existing; assumption.
Qed.

Lemma wf_fsb_correct (f : gmap path node) : wf_fsb f = true -> wf_fs f.
Proof.
  unfold wf_fsb. rewrite forallb_forall.
  intros Hall c parent n Hlook.
  specialize (Hall (c :: parent, n)). simpl in Hall.
  unfold isdir in Hall.
  destruct (node_at f parent) as [[|text]|]; try reflexivity;
    exfalso; (assert (false = true) as Habs; [|discriminate Habs]);
    apply Hall; apply list_elem_of_In, elem_of_map_to_list; exact Hlook.
Qed.

(** ** Stepping through statements *)

Lemma seq_Done (c1 c2 : State -> outcome) (st st' : State) :
  (c1 >> c2) st = Done st' ->
  exists st1, c1 st = Done st1 /\ c2 st1 = Done st'.
Proof.
  unfold seq_stmt, andthen. destruct (c1 st) as [st1|e st1]; [|discriminate].
  intros H. exists st1. auto.
Qed.

Lemma seq_step (c1 c2 : State -> outcome) (st st1 : State) :
  c1 st = Done st1 -> (c1 >> c2) st = c2 st1.
Proof. unfold seq_stmt, andthen. intros ->. reflexivity. Qed.

Lemma seq_fail (c1 c2 : State -> outcome) (st st1 : State) (e : exn) :
  c1 st = Failed e st1 -> (c1 >> c2) st = Failed e st1.
Proof. unfold seq_stmt, andthen. intros ->. reflexivity. Qed.

Lemma with_var_Done {A : Type} (proj : value -> option A) (x : string)
    (k : A -> State -> outcome) (st st' : State) :
  with_var proj x k st = Done st' ->
  exists v a, vars st !! x = Some v /\ proj v = Some a /\ k a st = Done st'.
Proof.
  unfold with_var. destruct (vars st !! x) as [v|]; [|discriminate].
  destruct (proj v) as [a|] eqn:Hproj; [|discriminate].
  intros H. exists v, a. auto.
Qed.

Lemma with_var_step {A : Type} (proj : value -> option A) (x : string)
    (k : A -> State -> outcome) (st : State) (v : value) (a : A) :
  vars st !! x = Some v -> proj v = Some a -> with_var proj x k st = k a st.
Proof. unfold with_var. intros -> ->. reflexivity. Qed.

Lemma os_makedirs_Done (name : string) (st st' : State) :
  os_makedirs name st = Done st' ->
  exists g, makedirs (fs st) (resolve (cwd st) name) true = Ok g /\
            st' = set_fs g st.
Proof.
  unfold os_makedirs.
  destruct (makedirs (fs st) (resolve (cwd st) name) true) as [g|e];
    [|discriminate].
  intros [= <-]. exists g. auto.
Qed.

Lemma os_chdir_Done (name : string) (st st' : State) :
  os_chdir name st = Done st' ->
  node_at (fs st) (resolve (cwd st) name) = Some Dir /\
  st' = set_cwd (resolve (cwd st) name) st.
Proof.
  unfold os_chdir.
  destruct (node_at (fs st) (resolve (cwd st) name)) as [[|text]|];
    try discriminate.
  intros [= <-]. auto.
Qed.

(** Reduce the fields of updated states and nothing else. *)
Ltac fields :=
  cbn [environ cwd fs heap next_loc vars trace
       set_environ set_cwd set_fs set_heap set_var emit] in *.

Lemma set_fs_same (st : State) : set_fs (fs st) st = st.
Proof. destruct st. reflexivity. Qed.

(** ** C9: preparing the workspace twice *)

(** C9.  Workspace preparation is idempotent.  On a tree-shaped file
    system, every [os.makedirs(..., exist_ok=True)] statement succeeds
    without changing anything when its target is already a directory; a
    successful one only adds entries and can be repeated without effect;
    and after the preparation cell has run, running it again succeeds and
    leaves the files, the working directory and the globals as they are. *)
Theorem workspace_preparation_idempotent (st : State) :
  wf_fs (fs st) ->
  (forall name, isdir (fs st) (resolve (cwd st) name) = true ->
                os_makedirs name st = Done st) /\
  (forall name st1, os_makedirs name st = Done st1 ->
                    fs st ⊆ fs st1 /\ os_makedirs name st1 = Done st1) /\
  (forall st1, cell_tmpdir st = Done st1 ->
               fs st ⊆ fs st1 /\
               exists st2, cell_tmpdir st1 = Done st2 /\ fs st2 = fs st1 /\
                           cwd st2 = cwd st1 /\ vars st2 = vars st1).
Proof.
  intros Hwf. split; [|split].
  - intros name Hdir. unfold os_makedirs.
    rewrite makedirs_existing; [rewrite set_fs_same; reflexivity|exact Hwf|].
    unfold isdir in Hdir.
    destruct (node_at (fs st) (resolve (cwd st) name)) as [[|text]|];
      congruence.
  - intros name st1 Hrun.
    apply os_makedirs_Done in Hrun as (g & Hmk & ->).
    destruct (makedirs_post _ _ _ Hwf Hmk) as (Hwfg & Hsub & Hdir).
    split; [exact Hsub|].
    unfold os_makedirs. simpl.
    rewrite (makedirs_twice _ _ _ Hwf Hmk). reflexivity.
  - intros st1 Hrun. unfold cell_tmpdir in Hrun.
    apply seq_Done in Hrun as (s1 & [= <-] & Hrun).
    apply seq_Done in Hrun as (s2 & Hpr & Hrun).
    apply with_var_Done in Hpr as (v0 & t0 & _ & _ & [= <-]).
    apply seq_Done in Hrun as (s3 & Hmk1 & Hrun).
    apply seq_Done in Hrun as (s4 & Hcd & Hmk2).
    apply with_var_Done in Hmk1 as (v1 & t & Hv1 & Ht & Hmk1).
    fields. rewrite lookup_insert_eq in Hv1.
    injection Hv1 as <-. injection Ht as <-.
    apply os_makedirs_Done in Hmk1 as (g1 & Hg1 & ->).
    apply with_var_Done in Hcd as (v2 & t & Hv2 & Ht & Hcd).
    fields. rewrite lookup_insert_eq in Hv2.
    injection Hv2 as <-. injection Ht as <-.
    apply os_chdir_Done in Hcd as (Hdir1 & ->).
    apply with_var_Done in Hmk2 as (v3 & d & Hv3 & Hd & Hmk2).
    apply os_makedirs_Done in Hmk2 as (g2 & Hg2 & ->).
    fields.
    change (resolve (cwd st) "/tmp/jupiter/") with ["jupiter"; "tmp"] in *.
    destruct (makedirs_post _ _ _ Hwf Hg1) as (Hwf1 & Hsub1 & _).
    destruct (makedirs_post _ _ _ Hwf1 Hg2) as (Hwf2 & Hsub2 & _).
    split; [etrans; eassumption|].
    assert (Hdir2 : node_at g2 ["jupiter"; "tmp"] = Some Dir)
      by (apply (node_at_mono g1); assumption).
    eexists. split; [|split; [|split]].
    + unfold cell_tmpdir.
      erewrite seq_step by reflexivity.
      erewrite seq_step; cycle 1.
      { erewrite with_var_step;
          [|fields; apply lookup_insert_eq|reflexivity].
        reflexivity. }
      erewrite seq_step; cycle 1.
      { erewrite with_var_step;
          [|fields; apply lookup_insert_eq|reflexivity].
        unfold os_makedirs. fields.
        change (resolve ["jupiter"; "tmp"] "/tmp/jupiter/")
          with ["jupiter"; "tmp"].
        rewrite makedirs_existing by assumption. reflexivity. }
      erewrite seq_step; cycle 1.
      { erewrite with_var_step;
          [|fields; apply lookup_insert_eq|reflexivity].
        unfold os_chdir. fields.
        change (resolve ["jupiter"; "tmp"] "/tmp/jupiter/")
          with ["jupiter"; "tmp"].
        rewrite Hdir2. reflexivity. }
      erewrite with_var_step; [| |exact Hd]; cycle 1.
      { fields. rewrite insert_insert_eq. exact Hv3. }
      unfold os_makedirs. fields.
      rewrite (makedirs_twice _ _ _ Hwf1 Hg2). reflexivity.
    + reflexivity.
    + reflexivity.
    + fields. rewrite insert_insert_eq. reflexivity.
Qed.

Lemma workspace_preparation_idempotent_witness :
  os_makedirs "/tmp" demo_start = Done demo_start.
Proof.
  apply (workspace_preparation_idempotent demo_start).
  - apply wf_fsb_correct. vm_compute. reflexivity.
  - vm_compute. reflexivity.
Defined.

Lemma os_system_Done (E : External) (command : string) (st st' : State) :
  os_system E command st = Done st' ->
  exists g status, st' = emit (EvShell command status) (set_fs g st).
Proof.
  unfold os_system. repeat case_match; intros [= <-];
    try (eexists _, _; reflexivity);
    eexists (fs st), _; rewrite set_fs_same; reflexivity.
Qed.

Lemma run_cells_Done (c : State -> outcome) (rest : list (State -> outcome))
    (st st' : State) (n : nat) :
  run_cells (c :: rest) st = (n, Done st') ->
  exists st1 m, c st = Done st1 /\ run_cells rest st1 = (m, Done st') /\ n = S m.
Proof.
  simpl. destruct (c st) as [st1|e st1]; [|discriminate].
  destruct (run_cells rest st1) as [m o] eqn:Hrest.
  intros [= <- ->]. exists st1, m. auto.
Qed.

Lemma run_cells_nil (st st' : State) (n : nat) :
  run_cells [] st = (n, Done st') -> st' = st /\ n = 0.
Proof. simpl. intros [= <- <-]. auto. Qed.

(** As many completed cells as there are cells: no cell raised. *)
Lemma run_cells_complete (cells : list (State -> outcome)) :
  forall st, (run_cells cells st).1 = length cells ->
             exists st', run_cells cells st = (length cells, Done st').
Proof.
  induction cells as [|c cells IH]; intros st; simpl.
  - intros _. exists st. reflexivity.
  - destruct (c st) as [st1|e st1]; [|discriminate].
    destruct (run_cells cells st1) as [n o] eqn:Hrest. simpl.
    intros [= Hn]. destruct (IH st1) as [st' Hdone].
    { rewrite Hrest. exact Hn. }
    exists st'. rewrite Hrest in Hdone. injection Hdone as -> ->. reflexivity.
Qed.

(** Break a terminated run of a cell into its statements. *)
Ltac unseq H :=
  lazymatch type of H with
  | (_ >> _) _ = Done _ =>
      let s := fresh "s" in
      let H1 := fresh "Hstep" in
      apply seq_Done in H as (s & H1 & H); unseq H1; unseq H
  | with_var _ _ _ _ = Done _ =>
      let v := fresh "v" in
      let a := fresh "a" in
      let Hv := fresh "Hv" in
      let Ha := fresh "Ha" in
      apply with_var_Done in H as (v & a & Hv & Ha & H);
      cbv beta in H; unseq H
  | with_env _ _ _ = Done _ =>
      unfold with_env in H;
      lazymatch type of H with
      | context [match ?x with _ => _ end] =>
          let a := fresh "a" in
          let Hv := fresh "Hv" in
          destruct x as [a|] eqn:Hv; [|discriminate H]; unseq H
      end
  | assign _ _ _ = Done _ => unfold assign in H; injection H as H
  | print _ _ = Done _ => unfold print in H; injection H as H
  | display _ _ = Done _ => unfold display in H; injection H as H
  | os_listdir _ = Done _ => unfold os_listdir, display in H; injection H as H
  | cell_listdir _ = Done _ =>
      unfold cell_listdir, os_listdir, display in H; injection H as H
  | os_makedirs _ _ = Done _ =>
      let g := fresh "g" in
      let Hmk := fresh "Hmk" in
      apply os_makedirs_Done in H as (g & Hmk & H)
  | os_chdir _ _ = Done _ =>
      let Hcd := fresh "Hcd" in
      apply os_chdir_Done in H as (Hcd & H)
  | os_system _ _ _ = Done _ =>
      let g := fresh "g" in
      let status := fresh "status" in
      apply os_system_Done in H as (g & status & H)
  | Done _ = Done _ => injection H as H
  | _ => idtac
  end.

(** Simplify the lookups of globals that the hypotheses mention. *)
Ltac lookups :=
  repeat match goal with
  | H : context [<[_ := _]> _ !! _] |- _ =>
      first [rewrite lookup_insert_eq in H
            |rewrite lookup_insert_ne in H by done]
  end.

Lemma as_str_Some (v : value) (s : string) : as_str v = Some s -> v = VStr s.
Proof. destruct v; simpl; congruence. Qed.
Lemma as_float_Some (v : value) (f : float) : as_float v = Some f -> v = VFloat f.
Proof. destruct v; simpl; congruence. Qed.
Lemma as_ref_Some (v : value) (l : nat) : as_ref v = Some l -> v = VRef l.
Proof. destruct v; simpl; congruence. Qed.
Lemma as_dict_Some (v : value) (d : gmap string string) :
  as_dict v = Some d -> v = VDict d.
Proof. destruct v; simpl; congruence. Qed.
Lemma as_instr_Some (v : value) (i : McStas_instr) :
  as_instr v = Some i -> v = VInstr i.
Proof. destruct v; simpl; congruence. Qed.
Lemma as_data_Some (v : value) (d : list dataset) :
  as_data v = Some d -> v = VData d.
Proof. destruct v; simpl; congruence. Qed.

(** Name the value a typed read has found. *)
Ltac typed :=
  repeat match goal with
  | H : as_str _ = Some _ |- _ => apply as_str_Some in H; subst
  | H : as_float _ = Some _ |- _ => apply as_float_Some in H; subst
  | H : as_ref _ = Some _ |- _ => apply as_ref_Some in H; subst
  | H : as_dict _ = Some _ |- _ => apply as_dict_Some in H; subst
  | H : as_instr _ = Some _ |- _ => apply as_instr_Some in H; subst
  | H : as_data _ = Some _ |- _ => apply as_data_Some in H; subst
  end.

Lemma io_read_Done (E : External) (name : string)
    (k : structure -> State -> outcome) (st st' : State) :
  io_read E name k st = Done st' ->
  exists text images s,
    node_at (fs st) (resolve (cwd st) name) = Some (File text) /\
    ase_parse E name text = Some images /\
    last images = Some s /\
    k s st = Done st'.
Proof.
  unfold io_read.
  destruct (node_at (fs st) (resolve (cwd st) name)) as [[|text]|] eqn:Hnode;
    try discriminate.
  destruct (ase_parse E name text) as [images|] eqn:Hparse; [|discriminate].
  destruct (last images) as [s|] eqn:Hlast;
    [|discriminate].
  intros H. exists text, images, s. auto.
Qed.

Lemma get_positions_Done (l : nat) (k : list vec3 -> State -> outcome)
    (st st' : State) :
  get_positions l k st = Done st' ->
  exists s c, heap st !! l = Some (OAtoms s c) /\ k (positions s) st = Done st'.
Proof.
  unfold get_positions. destruct (heap st !! l) as [[s c|par r]|];
    try discriminate.
  intros H. exists s, c. auto.
Qed.

Lemma set_calc_Done (l lc : nat) (st st' : State) :
  set_calc l lc st = Done st' ->
  exists s c, heap st !! l = Some (OAtoms s c) /\
              st' = set_heap l (OAtoms s (Some lc)) st.
Proof.
  unfold set_calc. destruct (heap st !! l) as [[s c|par r]|];
    try discriminate.
  intros [= <-]. exists s, c. auto.
Qed.

(** Reading the structure binds [atomCIF] to a new object and touches no
    other global. *)
Lemma cell_read_structure_Done (E : External) (st st' : State) :
  cell_read_structure E st = Done st' ->
  exists s, vars st' = <["atomCIF" := VRef (next_loc st)]> (vars st) /\
            heap st' = <[next_loc st := OAtoms s None]> (heap st) /\
            next_loc st' = S (next_loc st).
Proof.
  intros H. unfold cell_read_structure in H. unseq H.
  apply io_read_Done in Hstep as (text & images & s1 & _ & _ & _ & Hk).
  simpl in Hk. injection Hk as <-.
  apply get_positions_Done in H as (s2 & c2 & _ & H). unseq H.
  subst. fields. exists s1. auto.
Qed.

(** The configuration cell builds the calculator from the current values
    of [pseudopotfile], [tmpdir] and [pseudo_dir] and attaches it to the
    object [atomCIF] names. *)
Lemma cell_configure_Done (st st' : State) :
  cell_configure st = Done st' ->
  exists f t pd l s c,
    vars st !! "pseudopotfile" = Some (VStr f) /\
    vars st !! "tmpdir" = Some (VStr t) /\
    vars st !! "pseudo_dir" = Some (VStr pd) /\
    vars st !! "atomCIF" = Some (VRef l) /\
    heap st !! l = Some (OAtoms s c) /\
    l <> next_loc st /\
    vars st' = <["atom" := VRef l]>
                 (<["calc" := VRef (next_loc st)]>
                    (<["pseudopotentials" := VDict {["N" := f]}]> (vars st))) /\
    heap st' = <[l := OAtoms s (Some (next_loc st))]>
                 (<[next_loc st
                    := OCalc (espresso_parameters {["N" := f]} t pd) None]>
                    (heap st)) /\
    next_loc st' = S (next_loc st).
Proof.
  intros H. unfold cell_configure in H. unseq H. typed.
  match goal with
  | Halloc : (let (_, _) := alloc _ _ in _) = Done _ |- _ =>
      unfold alloc in Halloc; injection Halloc as <-
  end.
  subst. fields. lookups. simplify_eq.
  apply set_calc_Done in H as (s & c & Hl & ->). fields.
  match type of Hl with
  | <[_ := _]> _ !! ?l = _ =>
      assert (Hne : l <> next_loc st)
        by (intros ->; rewrite lookup_insert_eq in Hl; discriminate);
      rewrite lookup_insert_ne in Hl by auto
  end.
  eexists _, _, _, _, s, c. eauto 12.
Qed.

(** ** Objects and globals before the solver runs *)

Lemma keeps_heap_seq (c1 c2 : State -> outcome) :
  keeps_heap c1 -> keeps_heap c2 -> keeps_heap (c1 >> c2).
Proof.
  intros H1 H2 st st' Hrun.
  apply seq_Done in Hrun as (s1 & Hrun1 & Hrun2).
  destruct (H1 _ _ Hrun1) as [Hh1 Hn1].
  destruct (H2 _ _ Hrun2) as [Hh2 Hn2]. split; congruence.
Qed.

Lemma keeps_heap_with_var {A : Type} (proj : value -> option A) (x : string)
    (k : A -> State -> outcome) :
  (forall a, keeps_heap (k a)) -> keeps_heap (with_var proj x k).
Proof.
  intros Hk st st' Hrun.
  apply with_var_Done in Hrun as (v & a & _ & _ & Hrun).
  exact (Hk a _ _ Hrun).
Qed.

Lemma keeps_heap_with_env (x : string) (k : string -> State -> outcome) :
  (forall a, keeps_heap (k a)) -> keeps_heap (with_env x k).
Proof.
  intros Hk st st'. unfold with_env.
  destruct (environ st !! x) as [a|]; [|discriminate]. apply Hk.
Qed.

Lemma keeps_heap_assign (x : string) (v : value) : keeps_heap (assign x v).
Proof. intros st st' [= <-]. auto. Qed.

Lemma keeps_heap_print (p : printed) : keeps_heap (print p).
Proof. intros st st' [= <-]. auto. Qed.

Lemma keeps_heap_environ (k v : string) :
  keeps_heap (fun st => Done (set_environ k v st)).
Proof. intros st st' [= <-]. auto. Qed.

Lemma keeps_heap_listdir : keeps_heap os_listdir.
Proof. intros st st' [= <-]. auto. Qed.

Lemma keeps_heap_makedirs (name : string) : keeps_heap (os_makedirs name).
Proof.
  intros st st' Hrun. apply os_makedirs_Done in Hrun as (g & _ & ->). auto.
Qed.

Lemma keeps_heap_chdir (name : string) : keeps_heap (os_chdir name).
Proof.
  intros st st' Hrun. apply os_chdir_Done in Hrun as (_ & ->). auto.
Qed.

Lemma keeps_heap_system (E : External) (command : string) :
  keeps_heap (os_system E command).
Proof.
  intros st st'. unfold os_system.
  repeat case_match; intros [= <-]; auto.
Qed.

Ltac keeps :=
  repeat first
    [ apply keeps_heap_seq
    | apply keeps_heap_with_var; intros ?; cbv beta
    | apply keeps_heap_with_env; intros ?; cbv beta
    | apply keeps_heap_assign
    | apply keeps_heap_print
    | apply keeps_heap_environ
    | apply keeps_heap_listdir
    | apply keeps_heap_makedirs
    | apply keeps_heap_chdir
    | apply keeps_heap_system ].

Lemma keeps_heap_before_read (E : External) :
  keeps_heap cell_path /\ keeps_heap cell_print_path /\
  keeps_heap cell_tmpdir /\ keeps_heap (cell_download_structure E) /\
  keeps_heap (cell_download_pseudo E) /\ keeps_heap cell_listdir.
Proof.
  unfold cell_path, cell_print_path, cell_tmpdir, cell_download_structure,
    cell_download_pseudo, cell_listdir.
  repeat match goal with |- _ /\ _ => split end; keeps.
Qed.

Lemma cell_tmpdir_vars (st st' : State) :
  cell_tmpdir st = Done st' ->
  vars st' = <["tmpdir" := VStr "/tmp/jupiter/"]> (vars st).
Proof.
  intros H. unfold cell_tmpdir in H. unseq H. subst. reflexivity.
Qed.

Lemma cell_download_structure_vars (E : External) (st st' : State) :
  cell_download_structure E st = Done st' ->
  vars st' = <["CIF_file" := VStr "1527603.cif"]> (vars st).
Proof.
  intros H. unfold cell_download_structure in H. unseq H. subst. reflexivity.
Qed.

Lemma cell_download_pseudo_vars (E : External) (st st' : State) :
  cell_download_pseudo E st = Done st' ->
  exists t,
    vars st !! "tmpdir" = Some (VStr t) /\
    vars st' = <["pseudopotfile" := VStr "N.pbe-n-radius_5.UPF"]>
                 (<["pseudo_dir" := VStr (t +:+ "/pseudo/")]>
                    (<["pseudopotfile" := VStr "N.pbe-n-kjpaw_psl.1.0.0.UPF"]>
                       (vars st))).
Proof.
  intros H. unfold cell_download_pseudo in H. unseq H. typed.
  subst. fields. lookups. simplify_eq.
  eexists. split; [eassumption|reflexivity].
Qed.

(** The first nine cells, from any state: the structure read from the
    file becomes a new object, the calculator built from
    [solver_configuration] the next one, and the two are linked. *)
Lemma notebook_configures (E : External) (st0 : State) :
  (run_cells (firstn 9 (notebook E)) st0).1 = 9 ->
  let st := final_state (run_cells (firstn 9 (notebook E)) st0).2 in
  exists s,
    vars st !! "atom" = Some (VRef (next_loc st0)) /\
    vars st !! "calc" = Some (VRef (S (next_loc st0))) /\
    heap st = <[next_loc st0 := OAtoms s (Some (S (next_loc st0)))]>
                (<[S (next_loc st0) := OCalc solver_configuration None]>
                   (<[next_loc st0 := OAtoms s None]> (heap st0))) /\
    next_loc st = S (S (next_loc st0)).
Proof.
  intros Hcount.
  destruct (run_cells_complete _ _ Hcount) as [st H].
  rewrite H. cbn [snd final_state]. clear Hcount.
  cbn [firstn notebook length] in H.
  destruct (keeps_heap_before_read E) as (K1 & K2 & K3 & K4 & K5 & K6).
  apply run_cells_Done in H as (s1 & n1 & H1 & H & _).
  apply run_cells_Done in H as (s2 & n2 & H2 & H & _).
  apply run_cells_Done in H as (s3 & n3 & H3 & H & _).
  apply run_cells_Done in H as (s4 & n4 & H4 & H & _).
  apply run_cells_Done in H as (s5 & n5 & H5 & H & _).
  apply run_cells_Done in H as (s6 & n6 & H6 & H & _).
  apply run_cells_Done in H as (s7 & n7 & Hread & H & _).
  apply run_cells_Done in H as (s8 & n8 & Hview & H & _).
  apply run_cells_Done in H as (s9 & n9 & Hconf & H & _).
  apply run_cells_nil in H as [-> _].
  pose proof (cell_tmpdir_vars _ _ H3) as Hvars3.
  pose proof (cell_download_structure_vars _ _ _ H4) as Hvars4.
  destruct (cell_download_pseudo_vars _ _ _ H5) as (t & Ht & Hvars5).
  rewrite Hvars4, lookup_insert_ne, Hvars3, lookup_insert_eq in Ht by done.
  injection Ht as <-.
  assert (Hvars6 : vars s6 = vars s5).
  { unfold cell_listdir in H6. unseq H6. subst s6. reflexivity. }
  apply K1 in H1 as [Hh1 Hn1]. apply K2 in H2 as [Hh2 Hn2].
  apply K3 in H3 as [Hh3 Hn3]. apply K4 in H4 as [Hh4 Hn4].
  apply K5 in H5 as [Hh5 Hn5]. apply K6 in H6 as [Hh6 Hn6].
  assert (Hheap6 : heap s6 = heap st0) by congruence.
  assert (Hloc6 : next_loc s6 = next_loc st0) by congruence.
  apply cell_read_structure_Done in Hread as (s & Hvars7 & Hheap7 & Hloc7).
  unfold cell_view in Hview. unseq Hview. subst s8. fields.
  apply cell_configure_Done in Hconf
    as (f & t & pd & l & s' & c & Hf & Ht & Hpd & Hcif & Hl & Hne
        & Hvars & Hheap & Hloc).
  fields.
  rewrite Hvars7, Hvars6, Hvars5 in Hf, Ht, Hpd, Hcif.
  rewrite Hvars4, Hvars3 in Ht.
  lookups. simplify_eq.
  rewrite Hheap7, Hloc6, lookup_insert_eq in Hl. injection Hl as <- <-.
  exists s. rewrite Hvars, Hheap, Hloc, Hloc7, Hheap7, Hloc6, Hheap6.
  split; [apply lookup_insert_eq|].
  split; [rewrite lookup_insert_ne by done; apply lookup_insert_eq|].
  split; reflexivity.
Qed.

(** ** C10: which pseudopotential file the solver is configured with *)

(** C10.  Whatever the external programs do, once the notebook has run
    through its configuration cell the calculator attached to [atom] holds
    [solver_configuration]: it maps nitrogen to 'N.pbe-n-radius_5.UPF',
    the second file downloaded, and no entry of the mapping names
    'N.pbe-n-kjpaw_psl.1.0.0.UPF', the first. *)
Theorem pseudopotential_is_second_download (E : External) (st0 : State) :
  (run_cells (firstn 9 (notebook E)) st0).1 = 9 ->
  let st := final_state (run_cells (firstn 9 (notebook E)) st0).2 in
  exists l s lc,
    vars st !! "atom" = Some (VRef l) /\
    heap st !! l = Some (OAtoms s (Some lc)) /\
    vars st !! "calc" = Some (VRef lc) /\
    heap st !! lc = Some (OCalc solver_configuration None) /\
    pseudopotentials solver_configuration = {["N" := "N.pbe-n-radius_5.UPF"]} /\
    forall element,
      pseudopotentials solver_configuration !! element
      <> Some "N.pbe-n-kjpaw_psl.1.0.0.UPF".
Proof.
  intros Hcount st.
  destruct (notebook_configures E st0 Hcount) as (s & Hatom & Hcalc & Hheap & _).
  fold st in Hatom, Hcalc, Hheap.
  exists (next_loc st0), s, (S (next_loc st0)).
  split; [exact Hatom|].
  split; [rewrite Hheap; apply lookup_insert_eq|].
  split; [exact Hcalc|].
  split.
  { rewrite Hheap, lookup_insert_ne by lia. apply lookup_insert_eq. }
  split; [reflexivity|].
  intros element Hsome. unfold solver_configuration in Hsome.
  cbn [pseudopotentials espresso_parameters] in Hsome.
  apply lookup_singleton_Some in Hsome as [_ Hsome]. discriminate.
Qed.

Lemma pseudopotential_is_second_download_witness :
  let st := demo_state (laboratory true true true) 9 in
  exists l s lc,
    vars st !! "atom" = Some (VRef l) /\
    heap st !! l = Some (OAtoms s (Some lc)) /\
    vars st !! "calc" = Some (VRef lc) /\
    heap st !! lc = Some (OCalc solver_configuration None) /\
    pseudopotentials solver_configuration = {["N" := "N.pbe-n-radius_5.UPF"]} /\
    forall element,
      pseudopotentials solver_configuration !! element
      <> Some "N.pbe-n-kjpaw_psl.1.0.0.UPF".
Proof.
  apply (pseudopotential_is_second_download (laboratory true true true) demo_start).
  vm_compute. reflexivity.
Defined.

(** Every run of the notebook from a fresh interpreter that completes the
    configuration cell is in a configured state: the structure read from
    the file is object 0, its calculator is object 1, [atom] names
    object 0 and the next object will be object 2. *)
Lemma notebook_reaches_configured (E : External) (env : gmap string string)
    (dir : path) (files : gmap path node) :
  (run_cells (firstn 9 (notebook E)) (fresh_kernel env dir files)).1 = 9 ->
  let st := final_state
              (run_cells (firstn 9 (notebook E)) (fresh_kernel env dir files)).2 in
  exists s, configured st 0 1 s solver_configuration /\ next_loc st = 2.
Proof.
  intros Hcount st.
  destruct (notebook_configures E _ Hcount) as (s & Hatom & Hcalc & Hheap & Hloc).
  fold st in Hatom, Hcalc, Hheap, Hloc. cbn [next_loc fresh_kernel] in *.
  exists s. split; [|exact Hloc].
  split; [exact Hatom|]. split; [exact Hcalc|].
  rewrite Hheap.
  split; [apply lookup_insert_eq|].
  exists None. rewrite lookup_insert_ne by lia. apply lookup_insert_eq.
Qed.

(** ** The solver cell and the comparison cell *)

Lemma resolve_plain (c : path) :
  resolve c "espresso.pwo" = "espresso.pwo" :: c.
Proof. reflexivity. Qed.

(** When the calculator returns, the solver cell stores and prints what
    it returned. *)
Lemma cell_energy_returns (E : External) (st : State) (l lc : nat)
    (s : structure) (par : Espresso) :
  configured st l lc s par ->
  let o := espresso_run E par s (cwd st) (fs st) in
  co_raised o = None ->
  exists st',
    cell_energy E st = Done st' /\
    vars st' = <["fermi_level" := VFloat (co_fermi o)]>
                 (<["potential_energy" := VFloat (co_energy o)]> (vars st)) /\
    heap st' = <[l := OAtoms {| symbols := symbols s;
                                positions := co_positions o |} (Some lc)]>
                 (<[lc := OCalc par (Some {| energy := co_energy o;
                                             fermi_level := co_fermi o |})]>
                    (heap st)) /\
    fs st' = <["espresso.pwo" :: cwd st := File (co_pwo o)]>
               (<["espresso.pwi" :: cwd st := File (co_pwi o)]> (fs st)) /\
    cwd st' = cwd st /\
    next_loc st' = next_loc st /\
    trace st' = (trace st ++
      [EvSolver par s;
       EvPrint (PFormat "Total energy: {0} eV" (co_energy o));
       EvPrint (PFormat "Total energy: {0} eV"
                  (PrimFloat.add (co_energy o) 0%float));
       EvPrint (PFormat "Fermi energy: {0} eV" (co_fermi o))])%list.
Proof.
  intros (Hatom & Hcalc & Hl & r & Hlc) o Hraised.
  assert (Hne : l <> lc) by (intros ->; congruence).
  eexists. split.
  - unfold cell_energy.
    erewrite seq_step; cycle 1.
    { erewrite with_var_step by (eassumption || reflexivity).
      unfold get_potential_energy. rewrite Hl, Hlc. cbv zeta.
      fold o. rewrite Hraised. reflexivity. }
    erewrite seq_step; cycle 1.
    { erewrite with_var_step;
        [|fields; apply lookup_insert_eq|reflexivity].
      reflexivity. }
    erewrite seq_step; cycle 1.
    { erewrite with_var_step;
        [|fields; rewrite lookup_insert_ne by done; exact Hatom|reflexivity].
      unfold get_total_energy. fields.
      rewrite lookup_insert_eq.
      rewrite lookup_insert_ne, lookup_insert_eq by auto.
      reflexivity. }
    erewrite seq_step; cycle 1.
    { erewrite with_var_step;
        [|fields; rewrite lookup_insert_ne by done; exact Hcalc|reflexivity].
      unfold get_fermi_level. fields.
      rewrite lookup_insert_ne, lookup_insert_eq by auto.
      reflexivity. }
    erewrite with_var_step;
      [|fields; apply lookup_insert_eq|reflexivity].
    reflexivity.
  - fields. repeat split; try reflexivity.
    rewrite <- !app_assoc. reflexivity.
Qed.

(** When the calculator raises, the solver cell stops with that
    exception. *)
Lemma cell_energy_raises (E : External) (st : State) (l lc : nat)
    (s : structure) (par : Espresso) (e : exn) :
  configured st l lc s par ->
  co_raised (espresso_run E par s (cwd st) (fs st)) = Some e ->
  exists st', cell_energy E st = Failed e st'.
Proof.
  intros (Hatom & Hcalc & Hl & r & Hlc) Hraised.
  eexists. unfold cell_energy.
  erewrite seq_fail; [reflexivity|].
  erewrite with_var_step by (eassumption || reflexivity).
  unfold get_potential_energy. rewrite Hl, Hlc. cbv zeta.
  rewrite Hraised. reflexivity.
Qed.




(** ** C2: the comparison after the relaxation *)


(** ** C3: a run that did not converge *)


Lemma demo_configured :
  configured (demo_state (laboratory true true true) 9) 0 1 demo_before
    solver_configuration.
Proof.
  split; [vm_compute; reflexivity|].
  split; [vm_compute; reflexivity|].
  split; [vm_compute; reflexivity|].
  exists None. vm_compute. reflexivity.
Qed.





(** ** The data folder of the runner *)









(** ** C8: the numbered output folder *)



(** ** Resolving relative placements *)

Lemma index_of_None (name : string) (names : list string) :
  name ∉ names -> index_of name names = None.
Proof.
  induction names as [|n names IH]; intros Hnot; [reflexivity|].
  simpl. apply not_elem_of_cons in Hnot as [Hne Hnot].
  destruct (String.eqb n name) eqn:Heq.
  - apply String.eqb_eq in Heq. congruence.
  - rewrite IH by exact Hnot. reflexivity.
Qed.

Lemma resolve_reference_undeclared (declared : list string) (r : string) :
  r ∉ declared ->
  resolve_reference declared (RELATIVE r) = Raise (UndeclaredReference r).
Proof. intros Hnot. simpl. rewrite index_of_None by exact Hnot. reflexivity. Qed.

(** Resolution fails as soon as one component names a component that is
    declared nowhere. *)
Lemma resolve_placements_undeclared (cs : list Component) :
  forall (declared : list string) (c : Component) (r : string),
    c ∈ cs ->
    AT_RELATIVE c = RELATIVE r \/ ROTATED_RELATIVE c = RELATIVE r ->
    r ∉ declared -> r ∉ map comp_name cs ->
    exists name, resolve_placements declared cs = Raise (UndeclaredReference name).
Proof.
  induction cs as [|c0 cs IH]; intros declared c r Hin Href Hdecl Hnames;
    [inversion Hin|].
  simpl in Hnames. apply not_elem_of_cons in Hnames as [Hne Hnames].
  simpl.
  destruct (resolve_reference declared (AT_RELATIVE c0)) as [fa|e] eqn:Hat.
  - destruct (resolve_reference declared (ROTATED_RELATIVE c0)) as [fr|e] eqn:Hrot.
    + apply elem_of_cons in Hin as [->|Hin].
      * destruct Href as [Href|Href].
        -- rewrite Href, resolve_reference_undeclared in Hat by exact Hdecl.
           discriminate.
        -- rewrite Href, resolve_reference_undeclared in Hrot by exact Hdecl.
           discriminate.
      * simpl.
        destruct (IH (declared ++ [comp_name c0])%list c r Hin Href) as [name Hfail].
        { intros Hmem. apply elem_of_app in Hmem as [Hmem|Hmem]; [tauto|].
          apply list_elem_of_singleton in Hmem. congruence. }
        { exact Hnames. }
        exists name. rewrite Hfail. reflexivity.
    + simpl. destruct (ROTATED_RELATIVE c0) as [|name]; simpl in Hrot;
        [discriminate|].
      destruct (index_of name declared); [discriminate|].
      injection Hrot as <-. exists name. reflexivity.
  - simpl. destruct (AT_RELATIVE c0) as [|name]; simpl in Hat; [discriminate|].
    destruct (index_of name declared); [discriminate|].
    injection Hat as <-. exists name. reflexivity.
Qed.

(** ** C5: a placement relative to an undeclared component *)

(** C5.  Assembly records a [RELATIVE] name without looking it up.  If an
    instrument holds a component whose position or orientation is relative
    to a name that no component of the instrument has, resolution of the
    placements raises UndeclaredReference, and every simulation run of
    that instrument fails: no placement is made up and no dataset is
    produced. *)
Theorem undeclared_reference_fails (i : McStas_instr) (c : Component)
    (r : string) :
  c ∈ component_list i ->
  AT_RELATIVE c = RELATIVE r \/ ROTATED_RELATIVE c = RELATIVE r ->
  r ∉ map comp_name (component_list i) ->
  (exists name,
     resolve_placements [] (component_list i) = Raise (UndeclaredReference name)) /\
  forall (E : External) (ncount : float) (mpi : Z) (foldername : string)
         (increment : bool) (k : list dataset -> State -> outcome) (st : State),
    exists e st',
      run_full_instrument E i ncount mpi foldername increment k st = Failed e st' /\
      fs st' = fs st.
Proof.
  intros Hin Href Hnames.
  destruct (resolve_placements_undeclared (component_list i) [] c r Hin Href)
    as [name Hfail]; [apply not_elem_of_nil|exact Hnames|].
  split; [exists name; exact Hfail|].
  intros E ncount mpi foldername increment k st.
  unfold run_full_instrument.
  destruct (data_folder (fs st) (resolve (cwd st) foldername) increment)
    as [folder|e].
  - rewrite Hfail. eexists _, _. split; reflexivity.
  - eexists _, _. split; reflexivity.
Qed.

Lemma undeclared_reference_fails_witness :
  let c := {| comp_name := "detector"; comp_type := "Monitor_nD";
              AT := origin; AT_RELATIVE := RELATIVE "sample";
              ROTATED := origin; ROTATED_RELATIVE := RELATIVE "sample";
              SPLIT := None; comp_pars := [] |} in
  let i := add_component "detector" "Monitor_nD" None None (Some "sample")
             (McStas_instr_new "demo") in
  (c ∈ component_list i) /\
  ("sample" ∉ map comp_name (component_list i)) /\
  exists name,
    resolve_placements [] (component_list i) = Raise (UndeclaredReference name).
Proof.
  intros c i.
  assert (Hin : c ∈ component_list i) by (apply elem_of_cons; left; reflexivity).
  assert (Hnot : "sample" ∉ map comp_name (component_list i)).
  { intros H. apply elem_of_cons in H as [H|H]; [discriminate|inversion H]. }
  split; [exact Hin|]. split; [exact Hnot|].
  apply (undeclared_reference_fails i c "sample" Hin (or_introl eq_refl) Hnot).
Defined.

(** ** C6: the structure server cannot be reached *)

(** C6 (amended).  When the structure server cannot be reached, the fetch
    cell runs wget once, gets the wait status 1024 back from [os.system]
    and discards it: the cell ends normally with the files as they were,
    and the notebook goes on with the next cell.  The workflow stops later,
    at the structure-reading cell, which raises FileNotFoundError when no
    file of that name is in the working directory. *)
Theorem unreachable_server_is_noticed_at_read (E : External) (st : State) :
  http_get E "https://www.crystallography.net/cod/1527603.cif" = None ->
  (exists st1,
     cell_download_structure E st = Done st1 /\
     fs st1 = fs st /\ cwd st1 = cwd st /\
     vars st1 = <["CIF_file" := VStr "1527603.cif"]> (vars st) /\
     trace st1 = (trace st ++
       [EvPrint (PText "Downloading CIF file 1527603.cif from crystallography.net");
        EvShell "wget -c https://www.crystallography.net/cod/1527603.cif" 1024])%list /\
     forall rest,
       run_cells (cell_download_structure E :: rest) st
       = (let (n, o) := run_cells rest st1 in (S n, o))) /\
  (forall st2,
     vars st2 !! "CIF_file" = Some (VStr "1527603.cif") ->
     fs st2 !! ("1527603.cif" :: cwd st2) = None ->
     cell_read_structure E st2 = Failed FileNotFoundError st2).
Proof.
  intros Hnet. split.
  - assert (Hrun : cell_download_structure E st
             = Done (emit (EvShell "wget -c https://www.crystallography.net/cod/1527603.cif" 1024)
                      (emit (EvPrint (PText "Downloading CIF file 1527603.cif from crystallography.net"))
                         (set_var "CIF_file" (VStr "1527603.cif") st)))).
    { unfold cell_download_structure.
      erewrite seq_step by reflexivity.
      erewrite seq_step; cycle 1.
      { erewrite with_var_step;
          [|fields; apply lookup_insert_eq|reflexivity].
        reflexivity. }
      erewrite with_var_step;
        [|fields; apply lookup_insert_eq|reflexivity].
      unfold os_system.
      change (split_on " " ("wget -c https://www.crystallography.net/cod/" +:+ "1527603.cif"))
        with ["wget"; "-c"; "https://www.crystallography.net/cod/1527603.cif"].
      cbv beta iota. rewrite Hnet. reflexivity. }
    eexists. split; [exact Hrun|].
    repeat split; try reflexivity.
    + fields. rewrite <- app_assoc. reflexivity.
    + intros rest. cbn [run_cells]. rewrite Hrun. reflexivity.
  - intros st2 Hvar Hfile. unfold cell_read_structure.
    erewrite seq_fail; [reflexivity|].
    erewrite with_var_step by (eassumption || reflexivity).
    unfold io_read.
    change (resolve (cwd st2) "1527603.cif") with ("1527603.cif" :: cwd st2).
    cbn [node_at]. rewrite Hfile. reflexivity.
Qed.

Lemma unreachable_server_is_noticed_at_read_witness :
  let E := laboratory false true true in
  let st := demo_state E 3 in
  exists st1,
    cell_download_structure E st = Done st1 /\
    fs st1 = fs st /\
    trace st1 = (trace st ++
      [EvPrint (PText "Downloading CIF file 1527603.cif from crystallography.net");
       EvShell "wget -c https://www.crystallography.net/cod/1527603.cif" 1024])%list.
Proof.
  intros E st.
  destruct (unreachable_server_is_noticed_at_read E st eq_refl)
    as [(st1 & Hrun & Hfs & _ & _ & Htrace & _) _].
  exists st1. auto.
Defined.

(** The claim as stated fails in the laboratory without network: the
    fetch cell is the fourth cell of the notebook, yet the run does not
    stop there.  Six cells run to their end, the two pseudopotential
    downloads are attempted after the failed fetch, and the exception is
    the FileNotFoundError of the structure-reading cell. *)
Lemma unreachable_server_does_not_stop_at_fetch :
  let E := laboratory false true true in
  let r := run_cells (notebook E) demo_start in
  http_get E "https://www.crystallography.net/cod/1527603.cif" = None /\
  nth_error (notebook E) 3 = Some (cell_download_structure E) /\
  r.1 <> 3 /\
  r.1 = 6 /\
  raised r.2 = Some FileNotFoundError /\
  trace (final_state r.2) =
    [EvPrint (PText "/usr/bin:/home/user/PANOSC/bin:/usr/lib64/mpich/bin:");
     EvPrint (PText "Create temporary directory: /tmp/jupiter/");
     EvPrint (PText "Downloading CIF file 1527603.cif from crystallography.net");
     EvShell "wget -c https://www.crystallography.net/cod/1527603.cif" 1024;
     EvShell "wget -c https://www.quantum-espresso.org/upf_files/N.pbe-n-kjpaw_psl.1.0.0.UPF" 1024;
     EvShell "wget -c https://raw.githubusercontent.com/PaNOSC-ViNYL/workshop2020/team2/demo/team2/N.pbe-n-radius_5.UPF" 1024;
     EvDisplay (VList ["mcstas_output"; "pseudo"])].
Proof.
  split; [reflexivity|].
  split; [reflexivity|].
  split; [vm_compute; discriminate|].
  split; [vm_compute; reflexivity|].
  split; [vm_compute; reflexivity|].
  vm_compute; reflexivity.
Qed.

(** ** C4: the reflection file and the simulation stage *)




(** ** The Bragg angle *)

Section Bragg.
Local Open Scope R_scope.

Lemma PI_bounds : 3.14159 < PI < 3.1416.
Proof.
  pose proof (PI_2_3_7_ineq 3) as [Hlo Hhi].
  unfold sum_f_R0, tg_alt, PI_2_3_7_tg, Ratan_seq in Hlo, Hhi.
  simpl in Hlo, Hhi.
  split; lra.
Qed.

Lemma sin_ub_poly (a : R) :
  sin_ub a = a - a^3 / 6 + a^5 / 120 - a^7 / 5040 + a^9 / 362880.
Proof.
  unfold sin_ub, sin_approx, sum_f_R0, sin_term.
  rewrite !INR_IZR_INZ.
  replace (Z.of_nat (fact (2 * 0 + 1))) with 1%Z by (vm_compute; reflexivity).
  replace (Z.of_nat (fact (2 * 1 + 1))) with 6%Z by (vm_compute; reflexivity).
  replace (Z.of_nat (fact (2 * 2 + 1))) with 120%Z by (vm_compute; reflexivity).
  replace (Z.of_nat (fact (2 * 3 + 1))) with 5040%Z by (vm_compute; reflexivity).
  replace (Z.of_nat (fact (2 * 4 + 1))) with 362880%Z by (vm_compute; reflexivity).
  simpl. field.
Qed.

Lemma sin_lb_poly (a : R) :
  sin_lb a = a - a^3 / 6 + a^5 / 120 - a^7 / 5040.
Proof.
  unfold sin_lb, sin_approx, sum_f_R0, sin_term.
  rewrite !INR_IZR_INZ.
  replace (Z.of_nat (fact (2 * 0 + 1))) with 1%Z by (vm_compute; reflexivity).
  replace (Z.of_nat (fact (2 * 1 + 1))) with 6%Z by (vm_compute; reflexivity).
  replace (Z.of_nat (fact (2 * 2 + 1))) with 120%Z by (vm_compute; reflexivity).
  replace (Z.of_nat (fact (2 * 3 + 1))) with 5040%Z by (vm_compute; reflexivity).
  simpl. field.
Qed.

(** Bounds on an arcsine from bounds on the sine of a rational angle. *)
Lemma asin_above (a x : R) :
  0 <= a <= 1.5 -> -1 <= x <= 1 -> sin_ub a < x -> a < asin x.
Proof.
  intros Ha Hx Hs. pose proof PI_bounds as HP.
  pose proof (asin_bound x) as Hb.
  apply sin_increasing_0; try lra.
  rewrite sin_asin by assumption.
  destruct (SIN a) as [_ Hub]; lra.
Qed.

Lemma asin_below (a x : R) :
  0 <= a <= 1.5 -> -1 <= x <= 1 -> x < sin_lb a -> asin x < a.
Proof.
  intros Ha Hx Hs. pose proof PI_bounds as HP.
  pose proof (asin_bound x) as Hb.
  apply sin_increasing_0; try lra.
  rewrite sin_asin by assumption.
  destruct (SIN a) as [Hlb _]; lra.
Qed.

(** The angle for a wavelength of 1.2 and a scattering vector of 3.355. *)
Lemma bragg_angle_literal :
  18.68 < 180 / PI * asin (3.355 / (2 * (2 * PI / 1.2))) < 18.69.
Proof.
  pose proof PI_bounds as HP.
  assert (Hx : 3.355 / (2 * (2 * PI / 1.2)) = 1.0065 / PI).
  { replace 3.355 with (3355 / 1000) by lra.
    replace 1.2 with (12 / 10) by lra.
    replace 1.0065 with (10065 / 10000) by lra.
    field; lra. }
  rewrite Hx.
  assert (Hinv : / 3.1416 < / PI < / 3.14159).
  { split; apply Rinv_lt_contravar; nra. }
  assert (Hx1 : 1.0065 / 3.1416 < 1.0065 / PI) by (unfold Rdiv; nra).
  assert (Hx2 : 1.0065 / PI < 1.0065 / 3.14159) by (unfold Rdiv; nra).
  assert (Hlo : 0.326030 < asin (1.0065 / PI)).
  { apply asin_above; [lra | lra |].
    rewrite sin_ub_poly. simpl. lra. }
  assert (Hhi : asin (1.0065 / PI) < 0.326190).
  { apply asin_below; [lra | lra |].
    rewrite sin_lb_poly. simpl. lra. }
  unfold Rdiv. split; nra.
Qed.

Lemma wavevector_literal : 5.2359 < 2 * PI / 1.2 < 5.2361.
Proof. pose proof PI_bounds as HP. lra. Qed.



Lemma parse_wavevector :
  Init.parse_line "wavevector = 2*PI/wavelength;"
  = Some ("wavevector",
          Init.Div (Init.Mul (Init.Num 2 0) (Init.Id "PI")) (Init.Id "wavelength")).
Proof. vm_compute. reflexivity. Qed.

Lemma parse_mono_theta :
  Init.parse_line "mono_theta = RAD2DEG*asin(0.5*mono_Q/wavevector);"
  = Some ("mono_theta",
          Init.Mul (Init.Id "RAD2DEG")
            (Init.Call "asin"
               (Init.Div (Init.Mul (Init.Num 5 1) (Init.Id "mono_Q"))
                  (Init.Id "wavevector")))).
Proof. vm_compute. reflexivity. Qed.

Lemma initial_env_notebook (E : External) (wavelength mono_Q : R) :
  Init.initial_env (powder_diffractometer E)
    [("wavelength", wavelength); ("mono_Q", mono_Q)]
  = <["wavelength" := wavelength]>
      (<["mono_Q" := mono_Q]>
         (<["mono_theta" := 0]> (<["wavevector" := 0]> ∅))).
Proof.
  unfold Init.initial_env.
  change (declare_list (powder_diffractometer E))
    with [("double", "mono_theta"); ("double", "wavevector")].
  cbn [map snd fst list_to_map foldr].
  rewrite <- !insert_union_l, (left_id ∅ (∪)). reflexivity.
Qed.

Ltac look :=
  repeat (rewrite lookup_insert_eq || rewrite lookup_insert_ne by done).

(** What INITIALIZE computes, for any wavelength and scattering vector. *)
Lemma initialize_computes (E : External) (wavelength mono_Q : R) :
  exists rho,
    Init.initialize (powder_diffractometer E)
      [("wavelength", wavelength); ("mono_Q", mono_Q)] = Some rho /\
    rho !! "wavevector" = Some (2 * PI / wavelength) /\
    rho !! "mono_theta"
      = Some (180 / PI * asin (0.5 * mono_Q / (2 * PI / wavelength))).
Proof.
  unfold Init.initialize. rewrite initial_env_notebook.
  change (initialize_section (powder_diffractometer E))
    with ["wavevector = 2*PI/wavelength;";
          "mono_theta = RAD2DEG*asin(0.5*mono_Q/wavevector);"].
  cbn [Init.exec]. rewrite parse_wavevector, parse_mono_theta.
  cbn [Init.eval String.eqb Ascii.eqb Bool.eqb]. look.
  cbn [Init.eval String.eqb Ascii.eqb Bool.eqb]. look.
  eexists. split; [reflexivity|]. look.
  change (IZR (10 ^ Z.of_nat 0)) with 1.
  change (IZR (10 ^ Z.of_nat 1)) with 10.
  replace (2 / 1 * PI / wavelength) with (2 * PI / wavelength)
    by (unfold Rdiv; rewrite Rinv_1; ring).
  replace (5 / 10) with 0.5 by lra.
  split; reflexivity.
Qed.

Lemma half_quotient (q k : R) : 0.5 * q / k = q / (2 * k).
Proof.
  unfold Rdiv. rewrite Rinv_mult. replace 0.5 with (/ 2) by lra. ring.
Qed.

(** ** C1: the monochromator angle *)

(** C1 (amended).  For a positive wavelength and a scattering vector
    within reach (Q at most 2k), INITIALIZE sets [wavevector] to
    k = 2 PI / wavelength and [mono_theta] to the Bragg angle
    asin(Q / 2k), converted to degrees.  For wavelength 1.2 and Q 3.355
    the wavevector lies between 5.2359 and 5.2361 and the angle between
    18.68 and 18.69 degrees. *)
Theorem bragg_angle_of_initialize (E : External) (wavelength mono_Q : R) :
  0 < wavelength ->
  -1 <= mono_Q / (2 * (2 * PI / wavelength)) <= 1 ->
  exists rho k theta,
    Init.initialize (powder_diffractometer E)
      [("wavelength", wavelength); ("mono_Q", mono_Q)] = Some rho /\
    rho !! "wavevector" = Some k /\
    rho !! "mono_theta" = Some theta /\
    k = 2 * PI / wavelength /\
    theta = 180 / PI * asin (mono_Q / (2 * k)) /\
    sin (theta * PI / 180) = mono_Q / (2 * k) /\
    (wavelength = 1.2 -> mono_Q = 3.355 ->
     5.2359 < k < 5.2361 /\ 18.68 < theta < 18.69).
Proof.
  intros Hpos Hreach.
  destruct (initialize_computes E wavelength mono_Q) as (rho & Hrun & Hk & Htheta).
  rewrite half_quotient in Htheta.
  exists rho, (2 * PI / wavelength),
    (180 / PI * asin (mono_Q / (2 * (2 * PI / wavelength)))).
  repeat (split; [assumption || reflexivity|]).
  split.
  - replace (180 / PI * asin (mono_Q / (2 * (2 * PI / wavelength))) * PI / 180)
      with (asin (mono_Q / (2 * (2 * PI / wavelength))))
      by (field; apply PI_neq0).
    apply sin_asin. exact Hreach.
  - intros -> ->. split; [apply wavevector_literal|apply bragg_angle_literal].
Qed.

(** The claim as stated fails for the literal inputs: the angle computed
    for wavelength 1.2 and Q 3.355 is more than a quarter of a degree
    above 18.4, so it is 18.7 and not 18.4 to one decimal. *)
Lemma bragg_angle_is_not_18_4 :
  exists rho theta,
    Init.initialize (powder_diffractometer (laboratory true true true))
      [("wavelength", 1.2); ("mono_Q", 3.355)] = Some rho /\
    rho !! "mono_theta" = Some theta /\
    theta - 18.4 > 0.28 /\
    ~ (18.35 <= theta <= 18.45).
Proof.
  destruct (initialize_computes (laboratory true true true) 1.2 3.355)
    as (rho & Hrun & _ & Htheta).
  rewrite half_quotient in Htheta.
  exists rho, (180 / PI * asin (3.355 / (2 * (2 * PI / 1.2)))).
  pose proof bragg_angle_literal as [Hlo Hhi].
  repeat split; try assumption; lra.
Qed.

Lemma literal_within_reach : -1 <= 3.355 / (2 * (2 * PI / 1.2)) <= 1.
Proof.
  pose proof PI_bounds as HP.
  assert (Hx : 3.355 / (2 * (2 * PI / 1.2)) = 1.0065 / PI).
  { replace 3.355 with (3355 / 1000) by lra.
    replace 1.2 with (12 / 10) by lra.
    replace 1.0065 with (10065 / 10000) by lra.
    field; lra. }
  rewrite Hx.
  assert (Hinv : 0 < / PI < / 3) by (split; [apply Rinv_0_lt_compat; lra|apply Rinv_lt_contravar; nra]).
  unfold Rdiv. nra.
Qed.

Lemma bragg_angle_of_initialize_witness :
  exists rho k theta,
    Init.initialize (powder_diffractometer (laboratory true true true))
      [("wavelength", 1.2); ("mono_Q", 3.355)] = Some rho /\
    rho !! "wavevector" = Some k /\
    rho !! "mono_theta" = Some theta /\
    k = 2 * PI / 1.2 /\
    theta = 180 / PI * asin (3.355 / (2 * k)) /\
    sin (theta * PI / 180) = 3.355 / (2 * k) /\
    (1.2 = 1.2 -> 3.355 = 3.355 ->
     5.2359 < k < 5.2361 /\ 18.68 < theta < 18.69).
Proof.
  apply (bragg_angle_of_initialize (laboratory true true true) 1.2 3.355).
  - lra.
  - exact literal_within_reach.
Defined.

End Bragg.

(** * Further properties of the cells *)

(** ** The search path *)

(** With HOME and PATH set, the path cell ends normally and PATH becomes
    the old value followed by ":" and the Quantum Espresso directory under
    HOME, followed by ":/usr/lib64/mpich/bin:".  No other environment
    variable, no file and no object changes. *)
Lemma cell_path_Done (st : State) (home p : string) :
  environ st !! "HOME" = Some home ->
  environ st !! "PATH" = Some p ->
  exists st',
    cell_path st = Done st' /\
    environ st'
    = <["PATH" := (p +:+ ":" +:+ (home +:+ "/PANOSC/bin"))
                  +:+ ":/usr/lib64/mpich/bin:"]> (environ st) /\
    vars st' = <["mcstas_outdir" := VStr "mcstas_output"]>
                 (<["QE_bin_path" := VStr (home +:+ "/PANOSC/bin")]> (vars st)) /\
    fs st' = fs st /\ cwd st' = cwd st /\ heap st' = heap st /\
    trace st' = trace st.
Proof.
  intros Hhome Hpath. eexists. split.
  - unfold cell_path.
    erewrite seq_step; cycle 1.
    { unfold with_env. rewrite Hhome. reflexivity. }
    erewrite seq_step; cycle 1.
    { unfold with_env. fields. rewrite Hpath.
      erewrite with_var_step;
        [|fields; apply lookup_insert_eq|reflexivity].
      reflexivity. }
    erewrite seq_step by reflexivity.
    unfold with_env. fields. rewrite lookup_insert_eq. reflexivity.
  - fields. rewrite insert_insert_eq. repeat split; reflexivity.
Qed.

(** X1.  The path cell reads HOME first and PATH second.  Without HOME it
    raises KeyError and changes nothing; with HOME but without PATH it
    raises KeyError after binding [QE_bin_path], and the environment is
    as it was. *)
Theorem path_cell_missing_variable (st : State) :
  (environ st !! "HOME" = None ->
   cell_path st = Failed (KeyError "HOME") st) /\
  (forall home,
     environ st !! "HOME" = Some home ->
     environ st !! "PATH" = None ->
     cell_path st
     = Failed (KeyError "PATH")
         (set_var "QE_bin_path" (VStr (home +:+ "/PANOSC/bin")) st)).
Proof.
  split.
  - intros Hhome. unfold cell_path.
    erewrite seq_fail; [reflexivity|].
    unfold with_env. rewrite Hhome. reflexivity.
  - intros home Hhome Hpath. unfold cell_path.
    erewrite seq_step; cycle 1.
    { unfold with_env. rewrite Hhome. reflexivity. }
    erewrite seq_fail; [reflexivity|].
    unfold with_env. fields. rewrite Hpath. reflexivity.
Qed.

Lemma path_cell_missing_variable_witness :
  cell_path (fresh_kernel ∅ [] ∅)
  = Failed (KeyError "HOME") (fresh_kernel ∅ [] ∅).
Proof.
  apply (path_cell_missing_variable (fresh_kernel ∅ [] ∅)). reflexivity.
Defined.

Lemma string_length_app (a b : string) :
  String.length (a +:+ b) = String.length a + String.length b.
Proof. induction a as [|c a IH]; simpl; [reflexivity|]. rewrite IH. reflexivity. Qed.

(** X2.  The path cell appends, and is not idempotent.  With HOME and
    PATH set it ends normally with PATH extended by the Quantum Espresso
    directory under HOME and by the MPICH directory, entries already on
    the path staying in front; run a second time it appends the same two
    entries again, so PATH grows with every run. *)
Theorem path_cell_twice_appends_twice (st : State) (home p : string) :
  environ st !! "HOME" = Some home ->
  environ st !! "PATH" = Some p ->
  let extended (q : string) :=
    (q +:+ ":" +:+ (home +:+ "/PANOSC/bin")) +:+ ":/usr/lib64/mpich/bin:" in
  exists st1 st2,
    cell_path st = Done st1 /\
    cell_path st1 = Done st2 /\
    environ st1 !! "PATH" = Some (extended p) /\
    environ st2 !! "PATH" = Some (extended (extended p)) /\
    environ st2 !! "PATH" <> environ st1 !! "PATH" /\
    fs st2 = fs st /\ cwd st2 = cwd st.
Proof.
  intros Hhome Hpath extended.
  destruct (cell_path_Done st home p Hhome Hpath)
    as (st1 & Hrun1 & Henv1 & _ & Hfs1 & Hcwd1 & _).
  assert (Hhome1 : environ st1 !! "HOME" = Some home)
    by (rewrite Henv1, lookup_insert_ne by done; exact Hhome).
  assert (Hpath1 : environ st1 !! "PATH" = Some (extended p))
    by (rewrite Henv1; apply lookup_insert_eq).
  destruct (cell_path_Done st1 home (extended p) Hhome1 Hpath1)
    as (st2 & Hrun2 & Henv2 & _ & Hfs2 & Hcwd2 & _).
  exists st1, st2.
  split; [exact Hrun1|]. split; [exact Hrun2|]. split; [exact Hpath1|].
  assert (Hpath2 : environ st2 !! "PATH" = Some (extended (extended p)))
    by (rewrite Henv2; apply lookup_insert_eq).
  split; [exact Hpath2|]. split; [|split; congruence].
  rewrite Hpath2, Hpath1. intros [= Heq].
  apply (f_equal String.length) in Heq. unfold extended in Heq.
  rewrite !string_length_app in Heq. simpl in Heq. lia.
Qed.

Lemma path_cell_twice_witness :
  exists st1 st2,
    cell_path demo_start = Done st1 /\
    cell_path st1 = Done st2 /\
    environ st1 !! "PATH"
    = Some "/usr/bin:/home/user/PANOSC/bin:/usr/lib64/mpich/bin:" /\
    environ st2 !! "PATH"
    = Some "/usr/bin:/home/user/PANOSC/bin:/usr/lib64/mpich/bin::/home/user/PANOSC/bin:/usr/lib64/mpich/bin:" /\
    environ st2 !! "PATH" <> environ st1 !! "PATH" /\
    fs st2 = fs demo_start /\ cwd st2 = cwd demo_start.
Proof.
  apply (path_cell_twice_appends_twice demo_start "/home/user" "/usr/bin");
    reflexivity.
Defined.

(** ** Creating directories *)





(** [makedirs] removes and replaces nothing. *)
Lemma makedirs_subseteq (p : path) :
  forall f g : gmap path node, makedirs f p true = Ok g -> f ⊆ g.
Proof.
  induction p as [|c parent IH]; intros f g Hrun.
  - simpl in Hrun. injection Hrun as <-. reflexivity.
  - simpl in Hrun.
    assert (Hmid : exists f1,
              f ⊆ f1 /\
              match mkdir f1 (c :: parent) with
              | Ok f2 => Ok f2
              | Raise e => if isdir f1 (c :: parent) then Ok f1 else Raise e
              end = Ok g).
    { destruct (exists_at f parent).
      - exists f. simpl in Hrun. auto.
      - destruct (makedirs f parent true) as [f1|e] eqn:Hparent.
        + exists f1. simpl in Hrun. split; [|exact Hrun]. exact (IH _ _ Hparent).
        + exists f. destruct e; simpl in Hrun; try discriminate. auto. }
    destruct Hmid as (f1 & Hf1 & Hlast).
    destruct (mkdir f1 (c :: parent)) as [f2|e] eqn:Hmk.
    + injection Hlast as ->.
      apply mkdir_Ok in Hmk as (c' & parent' & _ & Hnone & _ & ->).
      etrans; [exact Hf1|]. apply insert_subseteq. exact Hnone.
    + destruct (isdir f1 (c :: parent)); [|discriminate].
      injection Hlast as <-. exact Hf1.
Qed.




(** ** The scratch directory *)

(** X5.  After the preparation cell the working directory is
    /tmp/jupiter, that directory exists, and so does the directory
    [mcstas_outdir] names, resolved from there; nothing that was in the
    file system before has been lost. *)
Theorem tmpdir_cell_enters_scratch (st st' : State) (d : string) :
  wf_fs (fs st) ->
  vars st !! "mcstas_outdir" = Some (VStr d) ->
  cell_tmpdir st = Done st' ->
  cwd st' = ["jupiter"; "tmp"] /\
  node_at (fs st') ["jupiter"; "tmp"] = Some Dir /\
  node_at (fs st') (resolve ["jupiter"; "tmp"] d) = Some Dir /\
  fs st ⊆ fs st'.
Proof.
  intros Hwf Hd H. unfold cell_tmpdir in H. unseq H. typed.
  subst. fields. lookups. simplify_eq.
  change (resolve (cwd st) "/tmp/jupiter/") with ["jupiter"; "tmp"] in *.
  destruct (makedirs_post _ _ _ Hwf Hmk) as (Hwf1 & Hsub1 & Hdir1).
  destruct (makedirs_post _ _ _ Hwf1 Hmk0) as (Hwf2 & Hsub2 & Hdir2).
  split; [reflexivity|]. split; [apply (node_at_mono g); assumption|].
  split; [exact Hdir2|]. etrans; eassumption.
Qed.

Lemma tmpdir_cell_enters_scratch_witness :
  let st := demo_state (laboratory true true true) 2 in
  let st' := demo_state (laboratory true true true) 3 in
  cwd st' = ["jupiter"; "tmp"] /\
  node_at (fs st') ["jupiter"; "tmp"] = Some Dir /\
  node_at (fs st') ["mcstas_output"; "jupiter"; "tmp"] = Some Dir /\
  fs st ⊆ fs st'.
Proof.
  intros st st'.
  apply (tmpdir_cell_enters_scratch st st' "mcstas_output").
  - apply wf_fsb_correct. vm_compute. reflexivity.
  - vm_compute. reflexivity.
  - vm_compute. reflexivity.
Defined.

(** X6.  The preparation cell reads [mcstas_outdir], which the first cell
    binds.  Run without it, the cell raises NameError at its last
    statement; the scratch directory has been created and entered by
    then, and stays so. *)
Theorem tmpdir_cell_needs_the_path_cell (st : State) (g : gmap path node) :
  wf_fs (fs st) ->
  vars st !! "mcstas_outdir" = None ->
  makedirs (fs st) ["jupiter"; "tmp"] true = Ok g ->
  exists st', cell_tmpdir st = Failed (NameError "mcstas_outdir") st' /\
              cwd st' = ["jupiter"; "tmp"] /\ fs st' = g /\
              vars st' !! "tmpdir" = Some (VStr "/tmp/jupiter/").
Proof.
  intros Hwf Hnone Hmk.
  destruct (makedirs_post _ _ _ Hwf Hmk) as (Hwf1 & Hsub1 & Hdir1).
  eexists. split; [|split; [|split]].
  - unfold cell_tmpdir.
    erewrite seq_step by reflexivity.
    erewrite seq_step; cycle 1.
    { erewrite with_var_step; [|fields; apply lookup_insert_eq|reflexivity].
      reflexivity. }
    erewrite seq_step; cycle 1.
    { erewrite with_var_step; [|fields; apply lookup_insert_eq|reflexivity].
      unfold os_makedirs. fields.
      change (resolve (cwd st) "/tmp/jupiter/") with ["jupiter"; "tmp"].
      rewrite Hmk. reflexivity. }
    erewrite seq_step; cycle 1.
    { erewrite with_var_step; [|fields; apply lookup_insert_eq|reflexivity].
      unfold os_chdir. fields.
      change (resolve (cwd st) "/tmp/jupiter/") with ["jupiter"; "tmp"].
      rewrite Hdir1. reflexivity. }
    unfold with_var. fields.
    rewrite lookup_insert_ne by done. rewrite Hnone. reflexivity.
  - reflexivity.
  - reflexivity.
  - fields. apply lookup_insert_eq.
Qed.

Lemma tmpdir_cell_needs_the_path_cell_witness :
  exists st', cell_tmpdir demo_start = Failed (NameError "mcstas_outdir") st' /\
              cwd st' = ["jupiter"; "tmp"] /\
              fs st' = <[["jupiter"; "tmp"] := Dir]> demo_files /\
              vars st' !! "tmpdir" = Some (VStr "/tmp/jupiter/").
Proof.
  apply (tmpdir_cell_needs_the_path_cell demo_start).
  - apply wf_fsb_correct. vm_compute. reflexivity.
  - reflexivity.
  - vm_compute. reflexivity.
Defined.

(** ** Downloading the pseudopotentials *)






(** ** Reading the structure *)



(** ** One object under two names *)

Lemma raised_None (o : outcome) :
  raised o = None -> o = Done (final_state o).
Proof. destruct o; simpl; [reflexivity|discriminate]. Qed.

(** X9.  [atom = atomCIF] copies nothing.  After the configuration cell
    [atom] and [atomCIF] name the same object; the calculator is attached
    to that one object, so it is attached under both names, and the
    structure the object holds is the one it held before.  The only new
    object is the calculator. *)
Theorem atom_is_an_alias (st : State) :
  raised (cell_configure st) = None ->
  let st' := final_state (cell_configure st) in
  exists l lc s c,
    vars st' !! "atomCIF" = Some (VRef l) /\
    vars st' !! "atom" = Some (VRef l) /\
    vars st' !! "calc" = Some (VRef lc) /\
    l <> lc /\
    heap st !! l = Some (OAtoms s c) /\
    heap st' !! l = Some (OAtoms s (Some lc)) /\
    (forall k, k <> l -> k <> lc -> heap st' !! k = heap st !! k) /\
    next_loc st' = S (next_loc st).
Proof.
  intros Hrun st'. apply raised_None in Hrun. fold st' in Hrun.
  apply cell_configure_Done in Hrun
    as (f & t & pd & l & s & c & _ & _ & _ & Hcif & Hl & Hne & Hvars & Hheap & Hloc).
  exists l, (next_loc st), s, c.
  rewrite Hvars, Hheap.
  split; [rewrite !lookup_insert_ne by done; exact Hcif|].
  split; [apply lookup_insert_eq|].
  split; [rewrite lookup_insert_ne by done; apply lookup_insert_eq|].
  split; [exact Hne|]. split; [exact Hl|].
  split; [apply lookup_insert_eq|].
  split; [|exact Hloc].
  intros k Hk1 Hk2. rewrite !lookup_insert_ne by auto. reflexivity.
Qed.

Lemma atom_is_an_alias_witness :
  let st := demo_state (laboratory true true true) 8 in
  let st' := final_state (cell_configure st) in
  exists l lc s c,
    vars st' !! "atomCIF" = Some (VRef l) /\
    vars st' !! "atom" = Some (VRef l) /\
    vars st' !! "calc" = Some (VRef lc) /\
    l <> lc /\
    heap st !! l = Some (OAtoms s c) /\
    heap st' !! l = Some (OAtoms s (Some lc)) /\
    (forall k, k <> l -> k <> lc -> heap st' !! k = heap st !! k) /\
    next_loc st' = S (next_loc st).
Proof.
  intros st.
  apply (atom_is_an_alias st). vm_compute. reflexivity.
Defined.

(** ** The exported structure *)

(** What the comparison cell leaves behind. *)
Lemma cell_diff_Done (E : External) (st st' : State) :
  cell_diff E st = Done st' ->
  exists s', heap st' = <[next_loc st := OAtoms s' None]> (heap st) /\
             vars st' = <["atomsOUT" := VRef (next_loc st)]> (vars st) /\
             fs st' = fs st /\ cwd st' = cwd st.
Proof.
  intros H. unfold cell_diff in H.
  apply seq_Done in H as (s1 & H1 & H).
  apply io_read_Done in H1 as (text & images & s' & _ & _ & _ & H1).
  unfold alloc in H1. injection H1 as <-.
  apply with_var_Done in H as (v & lo & _ & _ & H).
  apply get_positions_Done in H as (s2 & c2 & _ & H).
  apply with_var_Done in H as (v' & l & _ & _ & H).
  apply get_positions_Done in H as (s3 & c3 & _ & H).
  destruct (np_sub (positions s2) (positions s3)); [|discriminate].
  unfold display in H. injection H as <-. exists s'. auto.
Qed.

(** Writing the CIF file, from a state in which [atom] names an Atoms
    object. *)
Lemma cell_write_cif_Done (E : External) (st st' : State) (l : nat)
    (s : structure) (c : option nat) :
  vars st !! "atom" = Some (VRef l) ->
  heap st !! l = Some (OAtoms s c) ->
  cell_write_cif E st = Done st' ->
  fs st' = <["output.cif" :: cwd st := File (ase_format E "output.cif" s)]> (fs st) /\
  cwd st' = cwd st /\
  vars st' = <["hklfile" := VStr "output.cif.hkl"]>
               (<["ase_outfile" := VStr "output.cif"]> (vars st)).
Proof.
  intros Hatom Hl H. unfold cell_write_cif in H. unseq H. typed.
  subst. fields. lookups. simplify_eq.
  unfold io_write in Hstep1. fields. rewrite Hl in Hstep1.
  change (resolve (cwd st) "output.cif") with ("output.cif" :: cwd st) in Hstep1.
  destruct (isdir (fs st) ("output.cif" :: cwd st)); [discriminate|].
  injection Hstep1 as <-. auto.
Qed.

(** X10.  The exported structure is the object [atom] names.  When the
    solver, comparison and export cells run in a row from a configured
    state, output.cif holds the symbols of the structure that was read and
    the positions the calculator call left in that object; the structure
    read back from espresso.pwo, which [atomsOUT] names, is used for the
    displayed difference only. *)
Theorem export_writes_the_object_atom_names (E : External) (st : State)
    (l lc : nat) (s : structure) (par : Espresso) :
  configured st l lc s par ->
  l <> next_loc st ->
  raised ((cell_energy E >> cell_diff E >> cell_write_cif E) st) = None ->
  let o := espresso_run E par s (cwd st) (fs st) in
  let st' := final_state ((cell_energy E >> cell_diff E >> cell_write_cif E) st) in
  fs st' !! ("output.cif" :: cwd st)
  = Some (File (ase_format E "output.cif"
                  {| symbols := symbols s; positions := co_positions o |})) /\
  vars st' !! "atomsOUT" = Some (VRef (next_loc st)) /\
  vars st' !! "atom" = Some (VRef l).
Proof.
  intros Hconf Hne Hrun o st'. apply raised_None in Hrun. fold st' in Hrun.
  apply seq_Done in Hrun as (st1 & Hrun1 & Hrun).
  apply seq_Done in Hrun as (st2 & Hrun2 & Hrun3).
  destruct (co_raised o) as [e|] eqn:Hraised.
  { destruct (cell_energy_raises E st l lc s par e Hconf Hraised) as [st0 Hfail].
    congruence. }
  destruct (cell_energy_returns E st l lc s par Hconf Hraised)
    as (st1' & Hrun1' & Hvars1 & Hheap1 & Hfs1 & Hcwd1 & Hloc1 & _).
  rewrite Hrun1 in Hrun1'. injection Hrun1' as <-.
  destruct Hconf as (Hatom & Hcalc & Hl & r & Hlc).
  apply cell_diff_Done in Hrun2 as (s' & Hheap2 & Hvars2 & Hfs2 & Hcwd2).
  assert (Hatom2 : vars st2 !! "atom" = Some (VRef l)).
  { rewrite Hvars2, lookup_insert_ne by done. rewrite Hvars1.
    rewrite !lookup_insert_ne by done. exact Hatom. }
  assert (Hl2 : heap st2 !! l
                = Some (OAtoms {| symbols := symbols s;
                                  positions := co_positions o |} (Some lc))).
  { rewrite Hheap2, Hloc1, lookup_insert_ne by auto. rewrite Hheap1.
    apply lookup_insert_eq. }
  destruct (cell_write_cif_Done E st2 st' l _ _ Hatom2 Hl2 Hrun3)
    as (Hfs3 & Hcwd3 & Hvars3).
  rewrite Hfs3, Hvars3, Hvars2, Hcwd2, Hcwd1, Hloc1.
  split; [apply lookup_insert_eq|].
  split; [rewrite !lookup_insert_ne by done; apply lookup_insert_eq|].
  rewrite !lookup_insert_ne by done. rewrite Hvars1.
  rewrite !lookup_insert_ne by done. exact Hatom.
Qed.

Lemma export_writes_the_object_atom_names_witness :
  let E := laboratory true true true in
  let st := demo_state E 9 in
  let st' := final_state ((cell_energy E >> cell_diff E >> cell_write_cif E) st) in
  fs st' !! ["output.cif"; "jupiter"; "tmp"]
  = Some (File (ase_format E "output.cif" demo_before)) /\
  vars st' !! "atomsOUT" = Some (VRef 2) /\
  vars st' !! "atom" = Some (VRef 0).
Proof.
  intros E st.
  apply (export_writes_the_object_atom_names E st 0 1 demo_before
           solver_configuration).
  - exact demo_configured.
  - vm_compute. discriminate.
  - vm_compute. reflexivity.
Defined.

(** ** From the converted file to the engine's directory *)

Lemma os_system_cif2hkl (E : External) (command name : string) (st : State) :
  split_on " " command = ["cif2hkl"; name] ->
  os_system E command st
  = match node_at (fs st) (resolve (cwd st) name) with
    | Some (File text) =>
        match cif2hkl_run E text, resolve (cwd st) name with
        | Some hkl, c :: parent =>
            Done (emit (EvShell command 0)
                    (set_fs (<[(c +:+ ".hkl") :: parent := File hkl]> (fs st)) st))
        | _, _ => Done (emit (EvShell command 256) st)
        end
    | _ => Done (emit (EvShell command 256) st)
    end.
Proof. unfold os_system. intros ->. reflexivity. Qed.

Lemma os_system_git_clone (E : External) (command url : string) (st : State) :
  split_on " " command = ["git"; "clone"; url] ->
  os_system E command st
  = let d := strip_git (basename url) :: cwd st in
    if git_clone_run E url && negb (exists_at (fs st) d)
    then Done (emit (EvShell command 0) (set_fs (<[d := Dir]> (fs st)) st))
    else Done (emit (EvShell command 32768) st).
Proof. unfold os_system. intros ->. reflexivity. Qed.

(** The clone cell, whatever git does. *)
Lemma cell_git_clone_Done (E : External) (st : State) :
  let d := "McStas_ViNYL_concept" :: cwd st in
  exists status,
    cell_git_clone E st
    = Done (emit (EvShell "git clone git@github.com:PaNOSC-ViNYL/McStas_ViNYL_concept.git" status)
              (if git_clone_run E "git@github.com:PaNOSC-ViNYL/McStas_ViNYL_concept.git"
                  && negb (exists_at (fs st) d)
               then set_fs (<[d := Dir]> (fs st)) st else st)).
Proof.
  intros d. unfold cell_git_clone.
  rewrite (os_system_git_clone E _ "git@github.com:PaNOSC-ViNYL/McStas_ViNYL_concept.git")
    by reflexivity.
  change (strip_git (basename "git@github.com:PaNOSC-ViNYL/McStas_ViNYL_concept.git"))
    with "McStas_ViNYL_concept".
  cbv zeta. fold d.
  destruct (git_clone_run E _ && negb (exists_at (fs st) d));
    eexists; reflexivity.
Qed.

Lemma cell_git_clone_frame (E : External) (st st' : State) :
  cell_git_clone E st = Done st' ->
  cwd st' = cwd st /\ vars st' = vars st /\ fs st ⊆ fs st'.
Proof.
  intros H. destruct (cell_git_clone_Done E st) as [status Hrun].
  rewrite Hrun in H. injection H as <-.
  destruct (git_clone_run E _ && negb (exists_at (fs st) _)) eqn:Hcond; fields.
  - split; [reflexivity|]. split; [reflexivity|].
    apply andb_true_iff in Hcond as [_ Hfree].
    apply negb_true_iff in Hfree. unfold exists_at in Hfree. cbn [node_at] in Hfree.
    apply insert_subseteq.
    destruct (fs st !! ("McStas_ViNYL_concept" :: cwd st)); [discriminate|reflexivity].
  - auto.
Qed.

Lemma cell_enter_clone_Done (st st' : State) :
  cell_enter_clone st = Done st' ->
  node_at (fs st) ("McStas_ViNYL_concept" :: cwd st) = Some Dir /\
  cwd st' = "McStas_ViNYL_concept" :: cwd st /\ vars st' = vars st /\
  fs st ⊆ fs st'.
Proof.
  intros H. unfold cell_enter_clone in H. unseq H. subst. fields.
  change (resolve (cwd st) "McStas_ViNYL_concept")
    with ("McStas_ViNYL_concept" :: cwd st) in *.
  split; [assumption|]. split; [reflexivity|]. split; [reflexivity|].
  eapply makedirs_subseteq. eassumption.
Qed.

(** X11.  The sample's reflection file is found.  The instrument names
    it ../output.cif.hkl, relative to the directory the engine runs in.
    When cif2hkl succeeds on output.cif and the cells up to the entry into
    the clone run through, the working directory is the clone inside the
    scratch directory, and that relative name resolves to the file cif2hkl
    wrote next to output.cif. *)
Theorem reflections_path_names_the_converted_file (E : External)
    (st : State) (text hkl : string) :
  vars st !! "ase_outfile" = Some (VStr "output.cif") ->
  fs st !! ("output.cif" :: cwd st) = Some (File text) ->
  cif2hkl_run E text = Some hkl ->
  raised ((cell_cif2hkl E >> cell_listdir >> cell_git_clone E >> cell_enter_clone) st)
  = None ->
  let st' := final_state
    ((cell_cif2hkl E >> cell_listdir >> cell_git_clone E >> cell_enter_clone) st) in
  cwd st' = "McStas_ViNYL_concept" :: cwd st /\
  resolve (cwd st') "../output.cif.hkl" = "output.cif.hkl" :: cwd st /\
  node_at (fs st') (resolve (cwd st') "../output.cif.hkl") = Some (File hkl).
Proof.
  intros Hvar Hfile Hhkl Hrun st'. apply raised_None in Hrun. fold st' in Hrun.
  apply seq_Done in Hrun as (st1 & Hrun1 & Hrun).
  apply seq_Done in Hrun as (st2 & Hrun2 & Hrun).
  apply seq_Done in Hrun as (st3 & Hrun3 & Hrun4).
  unfold cell_cif2hkl in Hrun1.
  erewrite with_var_step in Hrun1 by (eassumption || reflexivity).
  rewrite (os_system_cif2hkl E _ "output.cif") in Hrun1 by reflexivity.
  change (resolve (cwd st) "output.cif") with ("output.cif" :: cwd st) in Hrun1.
  cbn [node_at] in Hrun1. rewrite Hfile, Hhkl in Hrun1.
  change ("output.cif" +:+ ".hkl") with "output.cif.hkl" in Hrun1.
  injection Hrun1 as <-.
  unseq Hrun2. subst st2.
  apply cell_git_clone_frame in Hrun3 as (Hcwd3 & _ & Hsub3).
  apply cell_enter_clone_Done in Hrun4 as (_ & Hcwd4 & _ & Hsub4).
  fields. rewrite Hcwd4, Hcwd3.
  change (resolve ("McStas_ViNYL_concept" :: cwd st) "../output.cif.hkl")
    with ("output.cif.hkl" :: cwd st).
  split; [reflexivity|]. split; [reflexivity|].
  cbn [node_at].
  eapply lookup_weaken; [|exact Hsub4].
  eapply lookup_weaken; [|exact Hsub3].
  apply lookup_insert_eq.
Qed.

Lemma reflections_path_names_the_converted_file_witness :
  let E := laboratory true true true in
  let st' := final_state
    ((cell_cif2hkl E >> cell_listdir >> cell_git_clone E >> cell_enter_clone)
       (demo_state E 12)) in
  cwd st' = ["McStas_ViNYL_concept"; "jupiter"; "tmp"] /\
  resolve (cwd st') "../output.cif.hkl" = ["output.cif.hkl"; "jupiter"; "tmp"] /\
  node_at (fs st') (resolve (cwd st') "../output.cif.hkl")
  = Some (File "# TITLE output.cif").
Proof.
  intros E.
  apply (reflections_path_names_the_converted_file E (demo_state E 12)
           "data_image0" "# TITLE output.cif").
  - vm_compute. reflexivity.
  - vm_compute. reflexivity.
  - reflexivity.
  - vm_compute. reflexivity.
Defined.

(** ** A clone that fails *)

(** X12.  A clone that fails is noticed one cell later.  The clone cell
    discards the status of git and ends normally, leaving the files as
    they were; the next cell raises FileNotFoundError at its first
    statement, [os.chdir], and no later cell runs. *)
Theorem failed_clone_is_noticed_at_chdir (E : External) (st : State)
    (rest : list (State -> outcome)) :
  git_clone_run E "git@github.com:PaNOSC-ViNYL/McStas_ViNYL_concept.git" = false ->
  fs st !! ("McStas_ViNYL_concept" :: cwd st) = None ->
  run_cells (cell_git_clone E :: cell_enter_clone :: rest) st
  = (1, Failed FileNotFoundError
          (emit (EvShell "git clone git@github.com:PaNOSC-ViNYL/McStas_ViNYL_concept.git" 32768)
             st)).
Proof.
  intros Hgit Hnone. cbn [run_cells].
  assert (Hclone : cell_git_clone E st
            = Done (emit (EvShell "git clone git@github.com:PaNOSC-ViNYL/McStas_ViNYL_concept.git" 32768) st)).
  { unfold cell_git_clone.
    rewrite (os_system_git_clone E _ "git@github.com:PaNOSC-ViNYL/McStas_ViNYL_concept.git")
      by reflexivity.
    cbv zeta. rewrite Hgit. reflexivity. }
  rewrite Hclone.
  assert (Henter : cell_enter_clone
            (emit (EvShell "git clone git@github.com:PaNOSC-ViNYL/McStas_ViNYL_concept.git" 32768) st)
            = Failed FileNotFoundError
               (emit (EvShell "git clone git@github.com:PaNOSC-ViNYL/McStas_ViNYL_concept.git" 32768) st)).
  { unfold cell_enter_clone. erewrite seq_fail; [reflexivity|].
    unfold os_chdir. fields.
    change (resolve (cwd st) "McStas_ViNYL_concept")
      with ("McStas_ViNYL_concept" :: cwd st).
    cbn [node_at]. rewrite Hnone. reflexivity. }
  rewrite Henter. reflexivity.
Qed.

Lemma failed_clone_is_noticed_at_chdir_witness :
  let E := without_git (laboratory true true true) in
  let r := run_cells (skipn 14 (notebook E)) (demo_state E 14) in
  r.1 = 1 /\ raised r.2 = Some FileNotFoundError /\
  launches (trace (final_state r.2)) = launches (trace (demo_state E 14)).
Proof.
  intros E r.
  assert (Hrun : r = (1, Failed FileNotFoundError
            (emit (EvShell "git clone git@github.com:PaNOSC-ViNYL/McStas_ViNYL_concept.git" 32768)
               (demo_state E 14)))).
  { apply (failed_clone_is_noticed_at_chdir E (demo_state E 14)).
    - reflexivity.
    - vm_compute. reflexivity. }
  rewrite Hrun. cbn [fst snd raised final_state]. fields.
  split; [reflexivity|]. split; [reflexivity|].
  unfold launches. rewrite List.filter_app. apply app_nil_r.
Defined.

(** ** The instrument and the simulation cell *)




Lemma instrument_names (E : External) :
  map comp_name (component_list (powder_diffractometer E))
  = ["Source"; "guide"; "guide_end"; "mono_pos"; "mono"; "mono_out"; "L_mon";
     "sample"; "monitor"].
Proof. reflexivity. Qed.

Lemma instrument_references_backward (E : External) :
  forall k c name,
    component_list (powder_diffractometer E) !! k = Some c ->
    AT_RELATIVE c = RELATIVE name \/ ROTATED_RELATIVE c = RELATIVE name ->
    name ∈ take k (map comp_name (component_list (powder_diffractometer E))).
Proof.
  intros k c name Hk Href. rewrite instrument_names.
  do 9 (destruct k as [|k];
        [vm_compute in Hk; injection Hk as <-; cbn in Href;
         destruct Href as [Href|Href]; try discriminate;
         injection Href as <-; cbn [take]; set_solver|]).
  vm_compute in Hk. discriminate.
Qed.

(** X13.  The assembly cell declares before it refers.  Whatever the
    math library returns for the arctangent, the nine components of the
    instrument have distinct names, and every component placed or rotated
    relative to a name refers to a component added earlier in the cell. *)
Theorem instrument_declares_before_it_refers (E : External) :
  let cs := component_list (powder_diffractometer E) in
  length cs = 9 /\
  NoDup (map comp_name cs) /\
  forall k c name,
    cs !! k = Some c ->
    AT_RELATIVE c = RELATIVE name \/ ROTATED_RELATIVE c = RELATIVE name ->
    exists j, j < k /\ map comp_name cs !! j = Some name.
Proof.
  intros cs. split; [reflexivity|]. split.
  - unfold cs. rewrite instrument_names.
    apply (bool_decide_unpack _). vm_compute. reflexivity.
  - intros k c name Hk Href.
    pose proof (instrument_references_backward E k c name Hk Href) as Hin.
    apply list_elem_of_lookup in Hin as [j Hj].
    apply lookup_take_Some in Hj as [Hj Hlt]. eauto.
Qed.



(** ** The solver and the engine over the whole notebook *)

Lemma launches_app (a b : list event) :
  launches (a ++ b) = (launches a ++ launches b)%list.
Proof. apply List.filter_app. Qed.

Lemma quiet_seq (c1 c2 : State -> outcome) :
  quiet c1 -> quiet c2 -> quiet (c1 >> c2).
Proof.
  intros H1 H2 st. destruct (H1 st) as (evs1 & Ht1 & Hl1).
  unfold seq_stmt, andthen. destruct (c1 st) as [st1|e st1]; simpl in Ht1.
  - destruct (H2 st1) as (evs2 & Ht2 & Hl2).
    exists (evs1 ++ evs2)%list. rewrite Ht2, Ht1, app_assoc, launches_app, Hl1, Hl2.
    auto.
  - exists evs1. auto.
Qed.

Lemma quiet_fail (e : exn) : quiet (fun st => Failed e st).
Proof. intros st. exists []. split; [symmetry; apply app_nil_r|reflexivity]. Qed.

Lemma quiet_with_var {A : Type} (proj : value -> option A) (x : string)
    (k : A -> State -> outcome) :
  (forall a, quiet (k a)) -> quiet (with_var proj x k).
Proof.
  intros Hk st. unfold with_var.
  destruct (vars st !! x) as [v|]; [|apply quiet_fail].
  destruct (proj v) as [a|]; [apply Hk|apply quiet_fail].
Qed.

Lemma quiet_with_env (x : string) (k : string -> State -> outcome) :
  (forall a, quiet (k a)) -> quiet (with_env x k).
Proof.
  intros Hk st. unfold with_env.
  destruct (environ st !! x) as [a|]; [apply Hk|apply quiet_fail].
Qed.

(** A statement that ends normally and prints at most one thing that is
    not a launch. *)
Ltac quiet_now :=
  first [ exists []; split; [symmetry; apply app_nil_r|reflexivity]
        | eexists [_]; split; reflexivity ].

Ltac quiet_leaf := let st := fresh "st" in intros st; quiet_now.

Lemma quiet_makedirs (name : string) : quiet (os_makedirs name).
Proof.
  intros st. unfold os_makedirs.
  destruct (makedirs (fs st) (resolve (cwd st) name) true); quiet_now.
Qed.

Lemma quiet_chdir (name : string) : quiet (os_chdir name).
Proof.
  intros st. unfold os_chdir. cbv zeta.
  destruct (node_at (fs st) (resolve (cwd st) name)) as [[|text]|];
    quiet_now.
Qed.

Lemma quiet_system (E : External) (command : string) :
  quiet (os_system E command).
Proof.
  intros st. unfold os_system. repeat case_match; quiet_now.
Qed.

Lemma quiet_io_read (E : External) (name : string)
    (k : structure -> State -> outcome) :
  (forall s, quiet (k s)) -> quiet (io_read E name k).
Proof.
  intros Hk st. unfold io_read.
  repeat case_match; try apply Hk; apply quiet_fail.
Qed.

Lemma quiet_io_write (E : External) (name : string) (l : nat) :
  quiet (io_write E name l).
Proof.
  intros st. unfold io_write. repeat case_match; quiet_now.
Qed.

Lemma quiet_get_positions (l : nat) (k : list vec3 -> State -> outcome) :
  (forall m, quiet (k m)) -> quiet (get_positions l k).
Proof.
  intros Hk st. unfold get_positions.
  repeat case_match; try apply Hk; apply quiet_fail.
Qed.

Lemma quiet_get_total_energy (l : nat) (k : float -> State -> outcome) :
  (forall e, quiet (k e)) -> quiet (get_total_energy l k).
Proof.
  intros Hk st. unfold get_total_energy.
  repeat case_match; try apply Hk; apply quiet_fail.
Qed.

Lemma quiet_get_fermi_level (l : nat) (k : float -> State -> outcome) :
  (forall e, quiet (k e)) -> quiet (get_fermi_level l k).
Proof.
  intros Hk st. unfold get_fermi_level.
  repeat case_match; try apply Hk; apply quiet_fail.
Qed.

Lemma quiet_set_calc (l lc : nat) : quiet (set_calc l lc).
Proof.
  intros st. unfold set_calc. repeat case_match; quiet_now.
Qed.

Ltac quietly :=
  repeat first
    [ apply quiet_seq
    | apply quiet_with_var; intros ?; cbv beta
    | apply quiet_with_env; intros ?; cbv beta
    | apply quiet_io_read; intros ?; cbv beta
    | apply quiet_get_positions; intros ?; cbv beta
    | apply quiet_get_total_energy; intros ?; cbv beta
    | apply quiet_get_fermi_level; intros ?; cbv beta
    | apply quiet_makedirs
    | apply quiet_chdir
    | apply quiet_system
    | apply quiet_io_write
    | apply quiet_set_calc
    | solve [quiet_leaf] ].

Lemma quiet_cell_diff (E : External) : quiet (cell_diff E).
Proof.
  unfold cell_diff. quietly.
  intros st. destruct (np_sub _ _); quiet_now.
Qed.

(** Every cell but the solver cell and the simulation cell. *)
Lemma quiet_cells (E : External) :
  Forall quiet (firstn 9 (notebook E)) /\
  Forall quiet [cell_diff E; cell_write_cif E; cell_cif2hkl E; cell_listdir;
                cell_git_clone E; cell_enter_clone] /\
  quiet cell_plot.
Proof.
  split; [|split].
  - cbn [firstn notebook].
    repeat apply Forall_cons_2; try apply Forall_nil_2;
      unfold cell_path, cell_print_path, cell_tmpdir, cell_download_structure,
        cell_download_pseudo, cell_listdir, os_listdir, cell_read_structure,
        cell_view, cell_configure; quietly.
  - repeat apply Forall_cons_2; try apply Forall_nil_2;
      try apply quiet_cell_diff;
      unfold cell_write_cif, cell_cif2hkl, cell_listdir, os_listdir,
        cell_git_clone, cell_enter_clone; quietly.
  - unfold cell_plot. quietly.
Qed.

Lemma run_all_cons (c : State -> outcome) (rest : list (State -> outcome))
    (st : State) :
  run_all (c :: rest) st
  = match c st with
    | Done st1 => run_all rest st1
    | Failed e st1 => Failed e st1
    end.
Proof.
  unfold run_all. cbn [run_cells]. destruct (c st) as [st1|e st1]; [|reflexivity].
  destruct (run_cells rest st1). reflexivity.
Qed.

Lemma run_all_app (l1 l2 : list (State -> outcome)) :
  forall st, run_all (l1 ++ l2) st
             = match run_all l1 st with
               | Done st1 => run_all l2 st1
               | Failed e st1 => Failed e st1
               end.
Proof.
  induction l1 as [|c l1 IH]; intros st; [reflexivity|].
  rewrite <- app_comm_cons, !run_all_cons.
  destruct (c st) as [st1|e st1]; [apply IH|reflexivity].
Qed.

Lemma run_all_Done_count (cells : list (State -> outcome)) :
  forall st st', run_all cells st = Done st' ->
                 (run_cells cells st).1 = length cells.
Proof.
  unfold run_all.
  induction cells as [|c cells IH]; intros st st'; [reflexivity|].
  cbn [run_cells]. destruct (c st) as [st1|e st1]; [|discriminate].
  specialize (IH st1). destruct (run_cells cells st1) as [n o].
  simpl in *. intros ->. f_equal. eapply IH. reflexivity.
Qed.

Lemma quiet_run_all (cells : list (State -> outcome)) :
  Forall quiet cells -> quiet (run_all cells).
Proof.
  induction 1 as [|c cells Hc _ IH]; [quiet_leaf|].
  intros st. rewrite run_all_cons.
  apply (quiet_seq c (run_all cells) Hc IH st).
Qed.

(** From a configured state the solver cell starts the solver, once. *)
Lemma cell_energy_launches (E : External) (st : State) (l lc : nat)
    (s : structure) (par : Espresso) :
  configured st l lc s par ->
  exists evs, trace (final_state (cell_energy E st)) = (trace st ++ evs)%list /\
              launches evs = [EvSolver par s].
Proof.
  intros (Hatom & Hcalc & Hl & r & Hlc).
  unfold cell_energy.
  match goal with
  | |- context [(?first >> ?rest) st] =>
      assert (Hrest : quiet rest) by quietly;
      set (c1 := first); set (c2 := rest) in *
  end.
  unfold seq_stmt, andthen.
  assert (Hfirst : exists st1, trace st1 = (trace st ++ [EvSolver par s])%list /\
                     (c1 st = Done st1 \/ exists e, c1 st = Failed e st1)).
  { unfold c1. erewrite with_var_step by (eassumption || reflexivity).
    unfold get_potential_energy. rewrite Hl, Hlc. cbv zeta.
    destruct (co_raised (espresso_run E par s (cwd st) (fs st))) as [e|].
    - eexists. split; [|right; eexists; reflexivity]. reflexivity.
    - eexists. split; [|left; reflexivity]. reflexivity. }
  destruct Hfirst as (st1 & Ht1 & [->|[e ->]]).
  - destruct (Hrest st1) as (evs & Ht & Hlaunch).
    exists (EvSolver par s :: evs). rewrite Ht, Ht1, <- app_assoc.
    split; [reflexivity|]. cbn. unfold launches in Hlaunch. rewrite Hlaunch.
    reflexivity.
  - exists [EvSolver par s]. auto.
Qed.

(** The simulation cell starts the engine at most once, on the instrument
    [Instr] names. *)
Lemma cell_run_launches (E : External) (st : State) (i : McStas_instr) :
  vars st !! "Instr" = Some (VInstr i) ->
  exists evs, trace (final_state (cell_run E st)) = (trace st ++ evs)%list /\
              (launches evs = [] \/
               exists folder, launches evs = [EvEngine i 5E6%float 4 folder]).
Proof.
  intros Hinstr. unfold cell_run.
  erewrite with_var_step by (eassumption || reflexivity).
  unfold with_var.
  destruct (vars st !! "mcstas_outdir") as [v|];
    [|exists []; split; [symmetry; apply app_nil_r|auto]].
  destruct (as_str v) as [d|];
    [|exists []; split; [symmetry; apply app_nil_r|auto]].
  unfold run_full_instrument.
  destruct (data_folder (fs st) (resolve (cwd st) d) true) as [folder|e];
    [|exists []; split; [symmetry; apply app_nil_r|auto]].
  exists [EvEngine i 5E6%float 4 folder].
  split; [|right; exists folder; reflexivity].
  destruct (resolve_placements [] (component_list i)); [|reflexivity].
  destruct (mcrun E i 5E6%float 4 (cwd st) (fs st)); reflexivity.
Qed.

(** X15.  The order of the two computations.  From any state and with
    any external programs, running the notebook only adds to what has been
    printed, and among what it adds the solver is started at most once,
    with the configuration of the notebook, and the engine at most once,
    after the solver, on the assembled instrument with 5E6 particles and
    4 processes.  The engine is never started when the solver was not. *)
Theorem solver_runs_before_engine (E : External) (st : State) :
  exists evs,
    trace (final_state (run_all (notebook E) st)) = (trace st ++ evs)%list /\
    (launches evs = [] \/
     (exists s, launches evs = [EvSolver solver_configuration s]) \/
     (exists s folder,
        launches evs
        = [EvSolver solver_configuration s;
           EvEngine (powder_diffractometer E) 5E6%float 4 folder])).
Proof.
  destruct (quiet_cells E) as (Hq1 & Hq2 & Hq3).
  apply quiet_run_all in Hq1, Hq2.
  change (notebook E)
    with (firstn 9 (notebook E) ++
          cell_energy E ::
          ([cell_diff E; cell_write_cif E; cell_cif2hkl E; cell_listdir;
            cell_git_clone E; cell_enter_clone] ++
           [cell_assemble E; cell_run E; cell_plot]))%list.
  rewrite run_all_app.
  destruct (Hq1 st) as (evs1 & Ht1 & Hl1).
  destruct (run_all (firstn 9 (notebook E)) st) as [st1|e st1] eqn:Hrun1;
    [|exists evs1; auto].
  cbn [final_state] in Ht1.
  pose proof (run_all_Done_count _ _ _ Hrun1) as Hcount.
  destruct (notebook_configures E st Hcount) as (s & Hatom & Hcalc & Hheap & _).
  unfold run_all in Hrun1. rewrite Hrun1 in Hatom, Hcalc, Hheap.
  cbn [final_state] in Hatom, Hcalc, Hheap.
  assert (Hconf : configured st1 (next_loc st) (S (next_loc st)) s
                    solver_configuration).
  { split; [exact Hatom|]. split; [exact Hcalc|]. rewrite Hheap.
    split; [apply lookup_insert_eq|].
    exists None. rewrite lookup_insert_ne by lia. apply lookup_insert_eq. }
  destruct (cell_energy_launches E st1 _ _ _ _ Hconf) as (evs2 & Ht2 & Hl2).
  rewrite run_all_cons.
  destruct (cell_energy E st1) as [st2|e st2]; cbn [final_state] in Ht2.
  2:{ exists (evs1 ++ evs2)%list. cbn [final_state]. rewrite Ht2, Ht1, app_assoc.
      split; [reflexivity|]. rewrite launches_app, Hl1, Hl2. right. left. eauto. }
  rewrite run_all_app.
  destruct (Hq2 st2) as (evs3 & Ht3 & Hl3).
  destruct (run_all _ st2) as [st3|e st3]; cbn [final_state] in Ht3.
  2:{ exists (evs1 ++ evs2 ++ evs3)%list. cbn [final_state]. rewrite Ht3, Ht2, Ht1, !app_assoc.
      split; [reflexivity|]. rewrite !launches_app, Hl1, Hl2, Hl3.
      right. left. eauto. }
  rewrite run_all_cons. unfold cell_assemble at 1, assign.
  rewrite run_all_cons.
  destruct (cell_run_launches E
              (set_var "Instr" (VInstr (powder_diffractometer E)) st3)
              (powder_diffractometer E)) as (evs4 & Ht4 & Hl4).
  { apply lookup_insert_eq. }
  fields.
  assert (Hstart : launches (evs1 ++ evs2 ++ evs3 ++ evs4)
                   = [] \/
                   (exists s0, launches (evs1 ++ evs2 ++ evs3 ++ evs4)
                               = [EvSolver solver_configuration s0]) \/
                   (exists s0 folder, launches (evs1 ++ evs2 ++ evs3 ++ evs4)
                      = [EvSolver solver_configuration s0;
                         EvEngine (powder_diffractometer E) 5E6%float 4 folder])).
  { rewrite !launches_app, Hl1, Hl2, Hl3.
    destruct Hl4 as [->|[folder ->]]; right; [left|right]; eauto. }
  destruct (cell_run E _) as [st4|e st4]; cbn [final_state] in Ht4.
  2:{ exists (evs1 ++ evs2 ++ evs3 ++ evs4)%list. cbn [final_state].
      rewrite Ht4, Ht3, Ht2, Ht1, !app_assoc. split; [reflexivity|].
      rewrite <- !app_assoc. exact Hstart. }
  rewrite run_all_cons.
  destruct (Hq3 st4) as (evs5 & Ht5 & Hl5).
  exists (evs1 ++ evs2 ++ evs3 ++ evs4 ++ evs5)%list.
  split.
  - change (run_all [] ?x) with (Done x).
    destruct (cell_plot st4) as [st5|e st5]; cbn [final_state] in *;
      rewrite Ht5, Ht4, Ht3, Ht2, Ht1, !app_assoc; reflexivity.
  - rewrite !launches_app, Hl5 in *. rewrite !app_nil_r. exact Hstart.
Qed.

Lemma solver_runs_before_engine_witness :
  let E := laboratory true true true in
  exists evs,
    trace (final_state (run_all (notebook E) demo_start)) = evs /\
    (launches evs = [] \/
     (exists s, launches evs = [EvSolver solver_configuration s]) \/
     (exists s folder,
        launches evs
        = [EvSolver solver_configuration s;
           EvEngine (powder_diffractometer E) 5E6%float 4 folder])) /\
    launches evs
    = [EvSolver solver_configuration demo_before;
       EvEngine (powder_diffractometer E) 5E6%float 4
         ["mcstas_output_0"; "McStas_ViNYL_concept"; "jupiter"; "tmp"]].
Proof.
  intros E. destruct (solver_runs_before_engine E demo_start) as (evs & Ht & Hl).
  exists evs. split; [exact Ht|]. split; [exact Hl|].
  change (trace demo_start ++ evs)%list with evs in Ht. rewrite <- Ht.
  vm_compute. reflexivity.
Defined.

(** ** The output folder *)





(** ** The listing after the export *)

Lemma listdir_spec (f : gmap path node) (d : path) (c : string) :
  c ∈ listdir f d <-> is_Some (f !! (c :: d)).
Proof.
  unfold listdir. rewrite list_elem_of_omap. split.
  - intros (p & Hp & Hc). apply list_elem_of_fmap in Hp as ([q n] & -> & Hq).
    apply elem_of_map_to_list in Hq. simpl in Hc.
    destruct q as [|c' parent]; [discriminate|].
    destruct (decide (parent = d)) as [->|]; [|discriminate].
    injection Hc as ->. eauto.
  - intros [n Hn]. exists (c :: d). split.
    + apply list_elem_of_fmap. exists (c :: d, n). split; [reflexivity|].
      apply elem_of_map_to_list. exact Hn.
    + rewrite decide_True by reflexivity. reflexivity.
Qed.

(** X17.  What the export cell shows.  When [atom] names an Atoms object
    and the export cell ends normally, the last thing it displays is the
    listing of the working directory, and that listing holds output.cif
    together with every name that was there before. *)
Theorem export_cell_lists_the_new_file (E : External) (st : State) (l : nat)
    (s : structure) (c : option nat) :
  vars st !! "atom" = Some (VRef l) ->
  heap st !! l = Some (OAtoms s c) ->
  raised (cell_write_cif E st) = None ->
  exists names,
    last (trace (final_state (cell_write_cif E st)))
    = Some (EvDisplay (VList names)) /\
    "output.cif" ∈ names /\
    forall name, is_Some (fs st !! (name :: cwd st)) -> name ∈ names.
Proof.
  intros Hatom Hl Hrun. apply raised_None in Hrun.
  set (st' := final_state (cell_write_cif E st)) in *.
  destruct (cell_write_cif_Done E st st' l s c Hatom Hl Hrun) as (Hfs & Hcwd & _).
  unfold cell_write_cif in Hrun.
  apply seq_Done in Hrun as (s1 & _ & Hrun).
  apply seq_Done in Hrun as (s2 & _ & Hrun).
  apply seq_Done in Hrun as (s3 & Hwrite & Hrun).
  unfold os_listdir, display in Hrun. injection Hrun as Hrun.
  assert (Hfs3 : fs s3 = fs st' /\ cwd s3 = cwd st') by (rewrite <- Hrun; auto).
  destruct Hfs3 as [Hfs3 Hcwd3].
  exists (listdir (fs s3) (cwd s3)). split.
  - rewrite <- Hrun. cbn [trace emit]. apply last_snoc.
  - rewrite Hfs3, Hcwd3, Hfs, Hcwd. split.
    + apply listdir_spec. rewrite lookup_insert_eq. eauto.
    + intros name [n Hn]. apply listdir_spec.
      destruct (decide ("output.cif" = name)) as [<-|Hne].
      * rewrite lookup_insert_eq. eauto.
      * rewrite lookup_insert_ne by congruence. eauto.
Qed.

Lemma export_cell_lists_the_new_file_witness :
  let E := laboratory true true true in
  exists names,
    last (trace (final_state (cell_write_cif E (demo_state E 11))))
    = Some (EvDisplay (VList names)) /\
    "output.cif" ∈ names /\
    forall name,
      is_Some (fs (demo_state E 11) !! (name :: cwd (demo_state E 11))) ->
      name ∈ names.
Proof.
  intros E.
  apply (export_cell_lists_the_new_file E (demo_state E 11) 0 demo_before (Some 1)).
  - vm_compute. reflexivity.
  - vm_compute. reflexivity.
  - vm_compute. reflexivity.
Defined.

(** ** Comparing structures of different sizes *)

(** X18.  The comparison cell and the number of atoms.  The difference is
    numpy's: when espresso.pwo holds another number of atoms than [atom]
    and neither holds exactly one, the cell raises ValueError, after
    [atomsOUT] has been bound; when espresso.pwo holds exactly one atom,
    nothing is raised and that one position is subtracted from by every
    position of [atom]. *)
Theorem comparison_needs_matching_sizes (E : External) (st : State) (l : nat)
    (s s' : structure) (c : option nat) (text : string)
    (images : list structure) :
  vars st !! "atom" = Some (VRef l) ->
  heap st !! l = Some (OAtoms s c) ->
  l <> next_loc st ->
  fs st !! ("espresso.pwo" :: cwd st) = Some (File text) ->
  ase_parse E "espresso.pwo" text = Some images ->
  last images = Some s' ->
  length (positions s') <> length (positions s) ->
  (length (positions s') <> 1 -> length (positions s) <> 1 ->
   raised (cell_diff E st) = Some ValueError /\
   vars (final_state (cell_diff E st)) !! "atomsOUT" = Some (VRef (next_loc st))) /\
  (forall x, positions s' = [x] ->
   raised (cell_diff E st) = None /\
   last (trace (final_state (cell_diff E st)))
   = Some (EvDisplay (VMatrix (map (fun y => vsub x y) (positions s))))).
Proof.
  intros Hatom Hl Hne Hfile Hparse Hlast Hlen.
  assert (Hrun : cell_diff E st
            = match np_sub (positions s') (positions s) with
              | Ok d => Done (emit (EvDisplay (VMatrix d))
                                (set_var "atomsOUT" (VRef (next_loc st))
                                   (alloc (OAtoms s' None) st).2))
              | Raise e => Failed e (set_var "atomsOUT" (VRef (next_loc st))
                                       (alloc (OAtoms s' None) st).2)
              end).
  { unfold cell_diff.
    erewrite seq_step; cycle 1.
    { unfold io_read. rewrite resolve_plain. cbn [node_at].
      rewrite Hfile, Hparse, Hlast. reflexivity. }
    erewrite with_var_step; [|fields; apply lookup_insert_eq|reflexivity].
    unfold get_positions at 1. fields. rewrite lookup_insert_eq.
    erewrite with_var_step;
      [|fields; rewrite lookup_insert_ne by done; exact Hatom|reflexivity].
    unfold get_positions. fields.
    rewrite lookup_insert_ne by auto. rewrite Hl.
    destruct (np_sub (positions s') (positions s)); reflexivity. }
  rewrite Hrun. unfold np_sub. rewrite decide_False by exact Hlen. split.
  - intros H1 H2.
    destruct (positions s') as [|x [|x' a]]; destruct (positions s) as [|y [|y' b]];
      simpl in *; try congruence; split; try reflexivity; apply lookup_insert_eq.
  - intros x Hx. rewrite Hx. cbn [raised final_state trace emit].
    split; [reflexivity|]. apply last_snoc.
Qed.

Lemma comparison_needs_matching_sizes_witness :
  let E := laboratory true true true in
  let three := {| symbols := ["N"; "N"; "N"];
                  positions := [(0, 0, 0); (1, 1, 1); (2, 2, 2)]%float |} in
  let st := set_heap 0 (OAtoms three (Some 1)) (demo_state E 10) in
  raised (cell_diff E st) = Some ValueError /\
  vars (final_state (cell_diff E st)) !! "atomsOUT" = Some (VRef 2).
Proof.
  intros E three st.
  apply (comparison_needs_matching_sizes E st 0 three demo_after (Some 1)
           "Program PWSCF" [demo_before; demo_after]).
  - vm_compute. reflexivity.
  - vm_compute. reflexivity.
  - vm_compute. discriminate.
  - vm_compute. reflexivity.
  - reflexivity.
  - reflexivity.
  - simpl. discriminate.
  - simpl. discriminate.
  - simpl. discriminate.
Defined.

(** ** From the download to the structure *)



